(** * PoseCamera: rep counting and form scoring

    A shallow embedding of the per-frame logic of the [PoseCamera]
    component: [getPoint], [calculateAngle], [interpretForm] and
    [processPose].

    JavaScript numbers are modelled as real numbers ([R]); a number
    that may be [undefined] (and hence turn into NaN in arithmetic)
    is an [option R].  Arithmetic on [R] is exact where the source
    rounds to a double: statements that depend on a threshold being
    crossed carry the margin that makes them hold of the rounded
    difference too, and [Doubles] gives [calculateAngle] over binary64
    numbers, where overflow and underflow show.  [Date.now()] is an integer number of
    milliseconds ([Z]) handed to [processPose] as an argument.  The
    two [useRef] cells are the fields of [Session]; calls of the React
    setters are returned as a list of [Event]s. *)

From Stdlib Require Import Reals Lra Lia List String ZArith Bool.
From Stdlib Require PrimFloat.
Import ListNotations.

Local Open Scope R_scope.

(** ** Comparison operators of the source, as booleans *)

Definition ltb (a b : R) : bool := if Rlt_dec a b then true else false.
Definition gtb (a b : R) : bool := if Rgt_dec a b then true else false.
Definition is_zero (a : R) : bool := if Req_dec_T a 0 then true else false.

(** ** Keypoints and poses *)

Module Keypoint.
Record t := mk { name : string; x : R; y : R; score : R }.
End Keypoint.

Record Pose := { keypoints : list Keypoint.t }.

(** [pose.keypoints.find((kp) => kp.name === name && kp.score > 0.4)] *)
Definition getPoint (pose : Pose) (name : string) : option Keypoint.t :=
  find (fun kp => String.eqb (Keypoint.name kp) name && gtb (Keypoint.score kp) 0.4)
       (keypoints pose).

(** ** Angle at the middle joint *)

(** [Math.hypot(x, y)], as the exact root. *)
Definition hypot (x y : R) : R := sqrt (x * x + y * y).

(** Over the reals, with the library [acos]; see [Doubles.calculateAngle]
    for the same code over binary64 numbers. *)
Definition calculateAngle (a b c : Keypoint.t) : R :=
  let abx := Keypoint.x a - Keypoint.x b in
  let aby := Keypoint.y a - Keypoint.y b in
  let cbx := Keypoint.x c - Keypoint.x b in
  let cby := Keypoint.y c - Keypoint.y b in
  let dot := abx * cbx + aby * cby in
  let magAB := hypot abx aby in
  let magCB := hypot cbx cby in
  if is_zero magAB || is_zero magCB then 180
  else
    let cosine := Rmin (Rmax (dot / (magAB * magCB)) (-1)) 1 in
    (acos cosine * 180) / PI.

(** ** Form interpreter *)

Module Form.
Record t := mk { message : string; score : R }.
End Form.

Definition msg_solid : string :=
  "Solid pushup - keep elbows tracking toward your ribs.".
Definition msg_too_deep : string :=
  "Don't dive too deep - aim for about 90 deg at the elbows.".
Definition msg_lower_more : string :=
  "Lower more; get elbows to roughly 90 deg for full range.".
Definition msg_nice_bend : string :=
  "Nice elbow bend - controlled 90 deg range.".
Definition msg_stack_wrists : string :=
  "Stack wrists under shoulders to avoid flaring the elbows.".
Definition msg_level_shoulders : string :=
  "Keep shoulders level; avoid twisting on the way up.".

Definition interpretForm (averageElbowAngle averageStack shoulderTilt : R) : Form.t :=
  let message := msg_solid in
  let newScore := 100 in
  let '(message, newScore) :=
    if ltb averageElbowAngle 75 then (msg_too_deep, newScore - 20)
    else if gtb averageElbowAngle 150 then (msg_lower_more, newScore - 15)
    else (msg_nice_bend, newScore) in
  let '(message, newScore) :=
    if gtb averageStack 90 then (msg_stack_wrists, newScore - 20)
    else (message, newScore) in
  let '(message, newScore) :=
    if gtb shoulderTilt 40 then (msg_level_shoulders, newScore - 15)
    else (message, newScore) in
  let newScore := Rmax 60 (Rmin 100 newScore) in
  Form.mk message newScore.

(** ** Rep-phase state *)

(** [phase] is the string the source stores; [topY] and [bottomY] are
    [undefined] until the first frame.  Arithmetic on [undefined]
    gives NaN and every comparison with NaN is false, so for these two
    fields [None] stands for both. *)
Module RepState.
Record t := mk { phase : string; topY : option R; bottomY : option R; repCount : nat }.
End RepState.

Definition Math_min (a : option R) (b : R) : option R := option_map (fun v => Rmin v b) a.
Definition Math_max (a : option R) (b : R) : option R := option_map (fun v => Rmax v b) a.

(** [a - b > c] on possibly undefined operands; the difference is
    exact here, the source compares its rounding to a double. *)
Definition diff_gt (a b : option R) (c : R) : bool :=
  match a, b with
  | Some u, Some v => gtb (u - v) c
  | _, _ => false
  end.

Definition downThreshold : R := 52.
Definition upThreshold : R := 40.
Definition minimumRange : R := 70.

(** ** Form statistics, session and published values *)

Module FormStats.
Record t := mk { angles : list R; stacks : list R; tilts : list R;
  lastFeedbackTime : Z }.
End FormStats.

Record Session := { repStateRef : RepState.t; formStatsRef : FormStats.t }.

(** Calls of the React state setters. *)
Inductive Event :=
| setRepCount (n : nat)
| setFeedback (m : string)
| setScore (s : R).

(** The refs as [useRef] creates them; [t0] is the [Date.now()] of the
    first render. *)
Definition initialRepState : RepState.t := RepState.mk "top" None None 0.
Definition initialSession (t0 : Z) : Session :=
  {| repStateRef := initialRepState;
     formStatsRef := FormStats.mk [] [] [] t0 |}.

(** ** processPose *)

(** Lines 169-193: the rep-phase machine on the mean shoulder height. *)
Definition processPose_rep (shoulderY : R) (state : RepState.t)
  : RepState.t * list Event :=
  let state :=
    match RepState.topY state with
    | None => RepState.mk (RepState.phase state) (Some shoulderY) (Some shoulderY)
                          (RepState.repCount state)
    | Some _ => state
    end in
  if String.eqb (RepState.phase state) "top" then
    let topY := Math_min (RepState.topY state) shoulderY in
    if diff_gt (Some shoulderY) topY downThreshold then
      (RepState.mk "bottom" topY (Some shoulderY) (RepState.repCount state), [])
    else
      (RepState.mk (RepState.phase state) topY (RepState.bottomY state)
                   (RepState.repCount state), [])
  else if String.eqb (RepState.phase state) "bottom" then
    let bottomY := Math_max (RepState.bottomY state) shoulderY in
    if diff_gt bottomY (Some shoulderY) upThreshold
       && diff_gt bottomY (RepState.topY state) minimumRange then
      let repCount := (RepState.repCount state + 1)%nat in
      (RepState.mk "top" (Some shoulderY) bottomY repCount, [setRepCount repCount])
    else
      (RepState.mk (RepState.phase state) (RepState.topY state) bottomY
                   (RepState.repCount state), [])
  else (state, []).

(** Lines 195-212: one entry per sequence when all six joints are there. *)
Definition processPose_accumulate (pose : Pose) (leftShoulder rightShoulder : Keypoint.t)
    (stats : FormStats.t) : FormStats.t :=
  match getPoint pose "left_elbow", getPoint pose "right_elbow",
        getPoint pose "left_wrist", getPoint pose "right_wrist" with
  | Some leftElbow, Some rightElbow, Some leftWrist, Some rightWrist =>
      let leftElbowAngle := calculateAngle leftShoulder leftElbow leftWrist in
      let rightElbowAngle := calculateAngle rightShoulder rightElbow rightWrist in
      let averageElbowAngle := (leftElbowAngle + rightElbowAngle) / 2 in
      let wristStackLeft := Rabs (Keypoint.x leftShoulder - Keypoint.x leftWrist) in
      let wristStackRight := Rabs (Keypoint.x rightShoulder - Keypoint.x rightWrist) in
      let averageStack := (wristStackLeft + wristStackRight) / 2 in
      let shoulderTilt := Rabs (Keypoint.y leftShoulder - Keypoint.y rightShoulder) in
      FormStats.mk (FormStats.angles stats ++ [averageElbowAngle])
                   (FormStats.stacks stats ++ [averageStack])
                   (FormStats.tilts stats ++ [shoulderTilt])
                   (FormStats.lastFeedbackTime stats)
  | _, _, _, _ => stats
  end.

(** [l.reduce((sum, val) => sum + val, 0) / l.length], with exact sum
    and quotient. *)
Definition average (l : list R) : R := fold_left Rplus l 0 / INR (List.length l).

(** The condition of the [if] at lines 216-221. *)
Definition flushDue (now : Z) (stats : FormStats.t) : bool :=
  let elapsed := (now - FormStats.lastFeedbackTime stats)%Z in
  (elapsed >=? 3000)%Z
  && (0 <? List.length (FormStats.angles stats))%nat
  && (0 <? List.length (FormStats.stacks stats))%nat
  && (0 <? List.length (FormStats.tilts stats))%nat.

(** Lines 214-240: the flush check. *)
Definition processPose_flush (now : Z) (stats : FormStats.t) : FormStats.t * list Event :=
  if flushDue now stats then
    let avgAngle := average (FormStats.angles stats) in
    let avgStack := average (FormStats.stacks stats) in
    let avgTilt := average (FormStats.tilts stats) in
    let form := interpretForm avgAngle avgStack avgTilt in
    (FormStats.mk [] [] [] now,
     [setFeedback (Form.message form); setScore (Form.score form)])
  else (stats, []).

Definition processPose (now : Z) (pose : Pose) (s : Session) : Session * list Event :=
  match getPoint pose "left_shoulder", getPoint pose "right_shoulder" with
  | Some leftShoulder, Some rightShoulder =>
      let shoulderY := (Keypoint.y leftShoulder + Keypoint.y rightShoulder) / 2 in
      let '(state, published) := processPose_rep shoulderY (repStateRef s) in
      let stats := processPose_accumulate pose leftShoulder rightShoulder (formStatsRef s) in
      let '(stats, flushed) := processPose_flush now stats in
      ({| repStateRef := state; formStatsRef := stats |}, published ++ flushed)
  | _, _ => (s, [])
  end.

(** ** Running a session *)

(** A frame is a pose together with the clock value read while it is
    processed. *)
Definition Frame : Type := Z * Pose.

Definition runFrames (frames : list Frame) (s : Session) : Session :=
  fold_left (fun s f => fst (processPose (fst f) (snd f) s)) frames s.

(** The mean shoulder height of a pose, when both shoulders are available. *)
Definition shoulderY (pose : Pose) : option R :=
  match getPoint pose "left_shoulder", getPoint pose "right_shoulder" with
  | Some leftShoulder, Some rightShoulder =>
      Some ((Keypoint.y leftShoulder + Keypoint.y rightShoulder) / 2)
  | _, _ => None
  end.

(** The shoulder heights the rep machine is fed by a list of frames. *)
Fixpoint shoulderTrack (frames : list Frame) : list R :=
  match frames with
  | [] => []
  | f :: rest =>
      match shoulderY (snd f) with
      | Some y => y :: shoulderTrack rest
      | None => shoulderTrack rest
      end
  end.

Definition repRun (ys : list R) (state : RepState.t) : RepState.t :=
  fold_left (fun st y => fst (processPose_rep y st)) ys state.

(** ** Vocabulary of the properties *)

Definition maxY (ys : list R) : R :=
  match ys with [] => 0 | y :: rest => fold_left Rmax rest y end.
Definition minY (ys : list R) : R :=
  match ys with [] => 0 | y :: rest => fold_left Rmin rest y end.

(** Total excursion of a sequence: its maximum minus its minimum. *)
Definition excursion (ys : list R) : R := maxY ys - minY ys.

(** [rising y l]: the sequence [y :: l] never decreases. *)
Fixpoint rising (y : R) (l : list R) : Prop :=
  match l with
  | [] => True
  | z :: rest => y <= z /\ rising z rest
  end.

(** [falling y l]: the sequence [y :: l] never increases. *)
Fixpoint falling (y : R) (l : list R) : Prop :=
  match l with
  | [] => True
  | z :: rest => z <= y /\ falling z rest
  end.

Definition sixJoints : list string :=
  ["left_shoulder"; "right_shoulder"; "left_elbow"; "right_elbow";
   "left_wrist"; "right_wrist"]%string.

(** A flush happened on a frame when its feedback was published. *)
Definition is_setFeedback (e : Event) : bool :=
  match e with setFeedback _ => true | _ => false end.
Definition flushes (events : list Event) : bool := existsb is_setFeedback events.

(** A pose that shows exactly the two shoulders, both at height [y]. *)
Definition shouldersAt (y : R) : Pose :=
  {| keypoints := [Keypoint.mk "left_shoulder" 0 y 0.9;
                   Keypoint.mk "right_shoulder" 10 y 0.9] |}.

(** Frames showing only the shoulders, at the given heights, one every
    16 ms from [now] on. *)
Fixpoint framesAt (now : Z) (ys : list R) : list Frame :=
  match ys with
  | [] => []
  | y :: rest => (now, shouldersAt y) :: framesAt (now + 16) rest
  end.

(** The gap the machine keeps between its extremes while in phase
    bottom. *)
Definition hysteresis (st : RepState.t) : Prop :=
  match RepState.topY st, RepState.bottomY st with
  | None, None => RepState.phase st = "top"%string
  | Some t, Some b =>
      RepState.phase st = "top"%string
      \/ (RepState.phase st = "bottom"%string /\ b - t > 52)
  | _, _ => False
  end.

(** Both tracked extremes, when set, lie in [[lo, lo + 70]]. *)
Definition in_band (lo : R) (st : RepState.t) : Prop :=
  (forall t, RepState.topY st = Some t -> lo <= t <= lo + 70)
  /\ (forall b, RepState.bottomY st = Some b -> lo <= b <= lo + 70).

(** A pose showing all six joints of the upper body. *)
Definition fullPose : Pose :=
  {| keypoints := [Keypoint.mk "left_shoulder" 100 200 0.9;
                   Keypoint.mk "right_shoulder" 300 200 0.9;
                   Keypoint.mk "left_elbow" 90 260 0.9;
                   Keypoint.mk "right_elbow" 310 260 0.9;
                   Keypoint.mk "left_wrist" 100 320 0.9;
                   Keypoint.mk "right_wrist" 300 320 0.9] |}.

(** The same pose with the left shoulder detected below the
    confidence threshold. *)
Definition hiddenShoulderPose : Pose :=
  {| keypoints := [Keypoint.mk "left_shoulder" 100 200 0.2;
                   Keypoint.mk "right_shoulder" 300 200 0.9;
                   Keypoint.mk "left_elbow" 90 260 0.9;
                   Keypoint.mk "right_elbow" 310 260 0.9;
                   Keypoint.mk "left_wrist" 100 320 0.9;
                   Keypoint.mk "right_wrist" 300 320 0.9] |}.

(** No keypoint of that name passes the confidence threshold. *)
Definition unavailable (pose : Pose) (name : string) : Prop :=
  forall kp, In kp (keypoints pose) -> Keypoint.name kp = name ->
             Keypoint.score kp <= 0.4.

Definition isSome {A : Type} (o : option A) : bool :=
  match o with Some _ => true | None => false end.

(** The condition of the [if] at line 200. *)
Definition allSixAvailable (pose : Pose) : bool :=
  forallb (fun name => isSome (getPoint pose name)) sixJoints.

(** The three sequences of a [FormStats.t]. *)
Definition sequences (stats : FormStats.t) : list R * list R * list R :=
  (FormStats.angles stats, FormStats.stacks stats, FormStats.tilts stats).

(** The condition under which the flush check fires. *)
Definition windowElapsed (now : Z) (stats : FormStats.t) : Prop :=
  (now - FormStats.lastFeedbackTime stats >= 3000)%Z
  /\ FormStats.angles stats <> []
  /\ FormStats.stacks stats <> []
  /\ FormStats.tilts stats <> [].

(** A session holding one buffered entry per sequence, last flushed at
    time 0. *)
Definition bufferedSession : Session :=
  {| repStateRef := initialRepState;
     formStatsRef := FormStats.mk [90] [10] [5] 0 |}.

(** ** Skeleton overlay *)

(** The size of the canvas element; [canvasRef.current] is [None] while
    the element is not mounted. *)
Module Canvas.
Record t := mk { width : R; height : R }.
End Canvas.

(** Calls on the 2D context, in the order they are made. *)
Inductive Draw :=
| clearRect (x y w h : R)
| beginPath
| arc (x y radius startAngle endAngle : R)
| fillStyle (colour : string)
| fill
| strokeStyle (colour : string)
| lineWidth (w : R)
| moveTo (x y : R)
| lineTo (x y : R)
| stroke.

Definition adjacentPairs : list (string * string) :=
  [("leftShoulder", "rightShoulder");
   ("leftShoulder", "leftElbow");
   ("leftElbow", "leftWrist");
   ("rightShoulder", "rightElbow");
   ("rightElbow", "rightWrist");
   ("leftShoulder", "leftHip");
   ("rightShoulder", "rightHip");
   ("leftHip", "rightHip");
   ("leftHip", "leftKnee");
   ("leftKnee", "leftAnkle");
   ("rightHip", "rightKnee");
   ("rightKnee", "rightAnkle")]%string.

(** [keypoints.find((kp) => kp.name === name)]: no confidence test. *)
Definition getKP (keypoints : list Keypoint.t) (name : string) : option Keypoint.t :=
  find (fun kp => String.eqb (Keypoint.name kp) name) keypoints.

(** The body of the first [forEach]: a dot on a confident keypoint. *)
Definition drawDot (kp : Keypoint.t) : list Draw :=
  if gtb (Keypoint.score kp) 0.4 then
    [beginPath; arc (Keypoint.x kp) (Keypoint.y kp) 5 0 (2 * PI);
     fillStyle "#7cf8ff"; fill]
  else [].

(** The body of the second [forEach]; [kpA?.score > 0.4] is false when
    [getKP] found nothing. *)
Definition drawSegment (keypoints : list Keypoint.t) (pair : string * string)
  : list Draw :=
  let '(a, b) := pair in
  match getKP keypoints a, getKP keypoints b with
  | Some kpA, Some kpB =>
      if gtb (Keypoint.score kpA) 0.4 && gtb (Keypoint.score kpB) 0.4 then
        [beginPath; moveTo (Keypoint.x kpA) (Keypoint.y kpA);
         lineTo (Keypoint.x kpB) (Keypoint.y kpB); stroke]
      else []
  | _, _ => []
  end.

Definition drawSkeleton (canvas : option Canvas.t) (pose : Pose) : list Draw :=
  match canvas with
  | None => []
  | Some canvas =>
      let keypoints := keypoints pose in
      [clearRect 0 0 (Canvas.width canvas) (Canvas.height canvas)]
      ++ flat_map drawDot keypoints
      ++ [strokeStyle "#6cf5b5"; lineWidth 3.5]
      ++ flat_map (drawSegment keypoints) adjacentPairs
  end.

Definition is_arc (d : Draw) : bool := match d with arc _ _ _ _ _ => true | _ => false end.
Definition is_stroke (d : Draw) : bool := match d with stroke => true | _ => false end.
Definition is_confident (kp : Keypoint.t) : bool := gtb (Keypoint.score kp) 0.4.

(** ** What the page shows *)

(** The three [useState] cells. *)
Module View.
Record t := mk { repCount : nat; feedback : string; score : R }.
End View.

Definition msg_start : string :=
  "Start in a straight high plank and begin your first pushup.".

Definition initialView : View.t := View.mk 0 msg_start 100.

Definition applyEvent (v : View.t) (e : Event) : View.t :=
  match e with
  | setRepCount n => View.mk n (View.feedback v) (View.score v)
  | setFeedback m => View.mk (View.repCount v) m (View.score v)
  | setScore sc => View.mk (View.repCount v) (View.feedback v) sc
  end.

Definition render (events : list Event) (v : View.t) : View.t :=
  fold_left applyEvent events v.

(** Everything a list of frames publishes, in order. *)
Fixpoint runEvents (frames : list Frame) (s : Session) : list Event :=
  match frames with
  | [] => []
  | f :: rest =>
      let result := processPose (fst f) (snd f) s in
      snd result ++ runEvents rest (fst result)
  end.

(** The number of frames that show all six joints. *)
Definition fullFrames (frames : list Frame) : nat :=
  List.length (filter (fun f => allSixAvailable (snd f)) frames).

(** ** The variant with the descriptive summarizer *)

Definition msg_strong_rep : string := "Strong rep! Keep that tempo steady.".

(** [processPose] of the second component: the same rep machine, a
    fixed feedback on a counted rep, and a score of 100 on every frame
    that shows both shoulders. *)
Definition processPose_summarizer (pose : Pose) (state : RepState.t)
  : RepState.t * list Event :=
  match getPoint pose "left_shoulder", getPoint pose "right_shoulder" with
  | Some leftShoulder, Some rightShoulder =>
      let shoulderY := (Keypoint.y leftShoulder + Keypoint.y rightShoulder) / 2 in
      let state :=
        match RepState.topY state with
        | None => RepState.mk (RepState.phase state) (Some shoulderY) (Some shoulderY)
                              (RepState.repCount state)
        | Some _ => state
        end in
      let '(state, published) :=
        if String.eqb (RepState.phase state) "top" then
          let topY := Math_min (RepState.topY state) shoulderY in
          if diff_gt (Some shoulderY) topY downThreshold then
            (RepState.mk "bottom" topY (Some shoulderY) (RepState.repCount state), [])
          else
            (RepState.mk (RepState.phase state) topY (RepState.bottomY state)
                         (RepState.repCount state), [])
        else if String.eqb (RepState.phase state) "bottom" then
          let bottomY := Math_max (RepState.bottomY state) shoulderY in
          if diff_gt bottomY (Some shoulderY) upThreshold
             && diff_gt bottomY (RepState.topY state) minimumRange then
            let repCount := (RepState.repCount state + 1)%nat in
            (RepState.mk "top" (Some shoulderY) bottomY repCount,
             [setRepCount repCount; setFeedback msg_strong_rep])
          else
            (RepState.mk (RepState.phase state) (RepState.topY state) bottomY
                         (RepState.repCount state), [])
        else (state, []) in
      (state, published ++ [setScore 100])
  | _, _ => (state, [])
  end.

(** [sendToGemini] up to its first [await]: the rate limit.  The result
    is the new [lastGeminiCall] and the keypoints sent, if any. *)
Definition sendToGemini (now : Z) (keypoints : list Keypoint.t) (lastGeminiCall : Z)
  : Z * option (list Keypoint.t) :=
  if (now - lastGeminiCall <? 1000)%Z then (lastGeminiCall, None)
  else (now, Some keypoints).

(** The clock values at which a list of frames reaches the summarizer. *)
Fixpoint geminiCalls (frames : list Frame) (lastGeminiCall : Z) : list Z :=
  match frames with
  | [] => []
  | f :: rest =>
      match sendToGemini (fst f) (keypoints (snd f)) lastGeminiCall with
      | (last, Some _) => fst f :: geminiCalls rest last
      | (last, None) => geminiCalls rest last
      end
  end.

(** [spaced prev ts]: each time of [ts] is at least 1000 ms after the
    one before it, [prev] coming first. *)
Fixpoint spaced (prev : Z) (ts : list Z) : Prop :=
  match ts with
  | [] => True
  | t :: rest => (t - prev >= 1000)%Z /\ spaced t rest
  end.

(** Twice the count, plus one while the phase is bottom: the number of
    phase changes so far. *)
Definition halfReps (st : RepState.t) : nat :=
  (2 * RepState.repCount st
   + (if String.eqb (RepState.phase st) "bottom" then 1 else 0))%nat.

(** The phase is one of the two the source assigns, and the extremes
    are heights of [ys], the lower one in [topY]; they are unset only
    while [ys] is empty. *)
Definition tracked (ys : list R) (st : RepState.t) : Prop :=
  (RepState.phase st = "top"%string \/ RepState.phase st = "bottom"%string)
  /\ match RepState.topY st, RepState.bottomY st with
     | None, None => ys = []
     | Some t, Some b => t <= b /\ In t ys /\ In b ys
     | _, _ => False
     end.

(** Buffered wrist offsets and shoulder tilts are distances. *)
Definition in_ranges (stats : FormStats.t) : Prop :=
  Forall (fun k => 0 <= k) (FormStats.stacks stats)
  /\ Forall (fun t => 0 <= t) (FormStats.tilts stats).

(** Every frame is processed less than 3000 ms after [last]. *)
Definition withinWindow (last : Z) (frames : list Frame) : Prop :=
  Forall (fun f : Frame => (fst f - last < 3000)%Z) frames.

(** The dot [drawSkeleton] puts on a keypoint. *)
Definition dotAt (kp : Keypoint.t) : Draw :=
  arc (Keypoint.x kp) (Keypoint.y kp) 5 0 (2 * PI).

Definition is_point (d : Draw) : bool :=
  match d with moveTo _ _ | lineTo _ _ => true | _ => false end.

(** A pose whose shoulders carry the names of [adjacentPairs]. *)
Definition camelPose : Pose :=
  {| keypoints := [Keypoint.mk "leftShoulder" 100 200 0.9;
                   Keypoint.mk "rightShoulder" 300 200 0.9;
                   Keypoint.mk "leftElbow" 90 260 0.1] |}.

(** A session of the variant with the summarizer. *)
Definition summarizerRun (frames : list Frame) (state : RepState.t) : RepState.t :=
  fold_left (fun st f => fst (processPose_summarizer (snd f) st)) frames state.

Fixpoint summarizerEvents (frames : list Frame) (state : RepState.t) : list Event :=
  match frames with
  | [] => []
  | f :: rest =>
      let result := processPose_summarizer (snd f) state in
      snd result ++ summarizerEvents rest (fst result)
  end.

(** One push-up as the camera sees it: a first height, the heights of
    the way down (rising y) and the heights of the way up. *)
Definition Cycle : Type := R * list R * list R.

Definition cycleHeights (c : Cycle) : list R :=
  let '(y0, up, down) := c in y0 :: up ++ down.

(** Half the distance from 70, and from 40, to the next double above
    it.  The difference of two doubles, rounded to the nearest double
    (ties to even), is above 70 exactly when the exact difference is
    above [70 + halfUlp70], and above 40 exactly when the exact
    difference is above [40 + halfUlp40]. *)
Definition halfUlp70 : R := / 2 ^ 47.
Definition halfUlp40 : R := / 2 ^ 48.

(** The heights rise from the first one to a peak more than 70 above
    it and then fall by more than 40, both as the source computes the
    differences. *)
Definition fullCycle (c : Cycle) : Prop :=
  let '(y0, up, down) := c in
  rising y0 up /\ falling (last up y0) down
  /\ last up y0 - y0 > 70 + halfUlp70
  /\ last up y0 - last down (last up y0) > 40 + halfUlp40.

(** ** The angle over binary64 numbers *)

(** [calculateAngle] with the arithmetic of the source: every operation
    is the binary64 one.  [Math.hypot] and [Math.acos] are library
    functions whose results the language leaves to the implementation;
    they are parameters. *)
Module Doubles.
Import PrimFloat.
Local Open Scope float_scope.

Record Point := mkPoint { x : float; y : float }.

(** [!m] on a number: true for 0, -0 and NaN. *)
Definition falsy (m : float) : bool := (m =? 0) || is_nan m.

(** [Math.max]: NaN if an argument is NaN, and +0 above -0. *)
Definition Math_max (a b : float) : float :=
  if is_nan a || is_nan b then nan
  else if a <? b then b
  else if b <? a then a
  else if a =? 0 then a + b
  else a.

Definition Math_min (a b : float) : float := - Math_max (- a) (- b).

Definition Math_PI : float := 0x1.921fb54442d18p+1.

Definition calculateAngle (hypot : float -> float -> float) (acos : float -> float)
    (a b c : Point) : float :=
  let abx := x a - x b in
  let aby := y a - y b in
  let cbx := x c - x b in
  let cby := y c - y b in
  let dot := abx * cbx + aby * cby in
  let magAB := hypot abx aby in
  let magCB := hypot cbx cby in
  if falsy magAB || falsy magCB then 180
  else
    let cosine := Math_min (Math_max (dot / (magAB * magCB)) (-1)) 1 in
    (acos cosine * 180) / Math_PI.

End Doubles.

(** * Auxiliary facts *)

Lemma ltb_true a b : a < b -> ltb a b = true.
Proof. intros H; unfold ltb; destruct (Rlt_dec a b); [reflexivity | contradiction]. Qed.

Lemma ltb_false a b : b <= a -> ltb a b = false.
Proof. intros H; unfold ltb; destruct (Rlt_dec a b); [lra | reflexivity]. Qed.

Lemma gtb_true a b : a > b -> gtb a b = true.
Proof. intros H; unfold gtb; destruct (Rgt_dec a b); [reflexivity | contradiction]. Qed.

Lemma gtb_false a b : a <= b -> gtb a b = false.
Proof. intros H; unfold gtb; destruct (Rgt_dec a b); [lra | reflexivity]. Qed.

Lemma gtb_spec a b : reflect (a > b) (gtb a b).
Proof. unfold gtb; destruct (Rgt_dec a b); constructor; assumption. Qed.

Lemma ltb_spec a b : reflect (a < b) (ltb a b).
Proof. unfold ltb; destruct (Rlt_dec a b); constructor; assumption. Qed.

Lemma is_zero_spec a : reflect (a = 0) (is_zero a).
Proof. unfold is_zero; destruct (Req_dec_T a 0); constructor; assumption. Qed.

(** Decide the comparisons and the [Rmin]/[Rmax] of a goal whose
    operands are known well enough for [lra]. *)
Ltac rdecide :=
  repeat match goal with
    | |- context [gtb ?a ?b] =>
        first [rewrite (gtb_true a b) by lra | rewrite (gtb_false a b) by lra]
    | |- context [ltb ?a ?b] =>
        first [rewrite (ltb_true a b) by lra | rewrite (ltb_false a b) by lra]
    | |- context [Rmin ?a ?b] =>
        first [rewrite (Rmin_left a b) by lra | rewrite (Rmin_right a b) by lra]
    | |- context [Rmax ?a ?b] =>
        first [rewrite (Rmax_left a b) by lra | rewrite (Rmax_right a b) by lra]
    end.

(** * Properties of the interpreter and of the angle *)

(** C2: the four documented test vectors of [interpretForm]: the
    baseline message with score 100, the too-deep message with score
    80, the stack-wrists message with score 80, and the level-shoulders
    message with the raw score 100-15-20-15 = 50 clamped to 60. *)
Theorem interpretForm_vectors :
  interpretForm 80 50 10 = Form.mk msg_nice_bend 100 /\
  interpretForm 60 50 10 = Form.mk msg_too_deep 80 /\
  interpretForm 80 100 10 = Form.mk msg_stack_wrists 80 /\
  interpretForm 160 100 50 = Form.mk msg_level_shoulders 60 /\
  100 - 15 - 20 - 15 = 50.
Proof.
  unfold interpretForm.
  repeat split; rdecide; cbn; rdecide; try (f_equal; lra); lra.
Qed.

(** C3: whatever the three averages are, the score of [interpretForm]
    is an integer between 60 and 100. *)
Theorem interpretForm_score_range (averageElbowAngle averageStack shoulderTilt : R) :
  exists n : Z,
    Form.score (interpretForm averageElbowAngle averageStack shoulderTilt) = IZR n
    /\ (60 <= n <= 100)%Z.
Proof.
  unfold interpretForm.
  destruct (ltb_spec averageElbowAngle 75);
    [ | destruct (gtb_spec averageElbowAngle 150) ];
    destruct (gtb_spec averageStack 90);
    destruct (gtb_spec shoulderTilt 40);
    cbn [Form.score]; rdecide;
    first [ exists 100%Z; split; [lra | lia]
          | exists 85%Z; split; [lra | lia]
          | exists 80%Z; split; [lra | lia]
          | exists 70%Z; split; [lra | lia]
          | exists 65%Z; split; [lra | lia]
          | exists 60%Z; split; [lra | lia] ].
Qed.

Lemma hypot_0_0 : hypot 0 0 = 0.
Proof. unfold hypot. replace (0 * 0 + 0 * 0) with 0 by ring. apply sqrt_0. Qed.

Lemma is_zero_0 : is_zero 0 = true.
Proof. destruct (is_zero_spec 0); [reflexivity | contradiction]. Qed.

(** Over the reals: the angle is exactly 180 when the vertex [b]
    coincides with [a] or with [c]. *)
Lemma calculateAngle_degenerate (a b c : Keypoint.t) :
  (Keypoint.x a = Keypoint.x b /\ Keypoint.y a = Keypoint.y b)
  \/ (Keypoint.x c = Keypoint.x b /\ Keypoint.y c = Keypoint.y b) ->
  calculateAngle a b c = 180.
Proof.
  intros [[Hx Hy] | [Hx Hy]]; unfold calculateAngle; cbv zeta.
  - rewrite Hx, Hy, !Rminus_diag, hypot_0_0, is_zero_0. reflexivity.
  - rewrite Hx, Hy, !Rminus_diag, hypot_0_0, is_zero_0, orb_true_r. reflexivity.
Qed.

Module DoublesFacts.
Import PrimFloat.
Local Open Scope float_scope.


End DoublesFacts.

(** C6: swapping the outer points does not change the angle. *)
Theorem calculateAngle_sym (a b c : Keypoint.t) :
  calculateAngle a b c = calculateAngle c b a.
Proof.
  unfold calculateAngle; cbv zeta.
  rewrite orb_comm.
  destruct (is_zero _ || is_zero _); [reflexivity | ].
  rewrite (Rmult_comm (hypot (Keypoint.x c - Keypoint.x b) (Keypoint.y c - Keypoint.y b))).
  rewrite (Rmult_comm (Keypoint.x c - Keypoint.x b)).
  rewrite (Rmult_comm (Keypoint.y c - Keypoint.y b)).
  reflexivity.
Qed.

(** * The rep-phase machine *)

(** ** One step, by phase *)

Lemma rep_seed (y : R) (b : option R) (n : nat) :
  processPose_rep y (RepState.mk "top" None b n)
  = (RepState.mk "top" (Some y) (Some y) n, []).
Proof.
  unfold processPose_rep; cbn.
  unfold downThreshold. rdecide. reflexivity.
Qed.

Lemma rep_top_step (y t : R) (b : option R) (n : nat) :
  processPose_rep y (RepState.mk "top" (Some t) b n)
  = if gtb (y - Rmin t y) 52
    then (RepState.mk "bottom" (Some (Rmin t y)) (Some y) n, [])
    else (RepState.mk "top" (Some (Rmin t y)) b n, []).
Proof. reflexivity. Qed.

Lemma rep_bottom_step (y t b : R) (n : nat) :
  processPose_rep y (RepState.mk "bottom" (Some t) (Some b) n)
  = if gtb (Rmax b y - y) 40 && gtb (Rmax b y - t) 70
    then (RepState.mk "top" (Some y) (Some (Rmax b y)) (n + 1),
          [setRepCount (n + 1)%nat])
    else (RepState.mk "bottom" (Some t) (Some (Rmax b y)) n, []).
Proof. reflexivity. Qed.

Lemma repRun_cons (y : R) (ys : list R) (st : RepState.t) :
  repRun (y :: ys) st = repRun ys (fst (processPose_rep y st)).
Proof. reflexivity. Qed.

Lemma repRun_app (xs ys : list R) (st : RepState.t) :
  repRun (xs ++ ys) st = repRun ys (repRun xs st).
Proof. apply fold_left_app. Qed.

(** A step leaves [repCount] alone or adds exactly one to it. *)
Lemma rep_step_count (y : R) (st : RepState.t) :
  let n := RepState.repCount st in
  let n' := RepState.repCount (fst (processPose_rep y st)) in
  n' = n \/ n' = (n + 1)%nat.
Proof.
  unfold processPose_rep.
  repeat match goal with
         | |- context [match ?c with _ => _ end] => destruct c
         end; cbn; auto.
Qed.

(** Evaluate the machine on a sequence of known heights. *)
Ltac rep_eval :=
  cbn [repRun fold_left];
  repeat (first [ rewrite rep_seed | rewrite rep_top_step | rewrite rep_bottom_step ];
          rdecide; cbn [fst snd andb]).

(** ** Rising and falling runs *)

Lemma last_cons (A : Type) (z d : A) (l : list A) : last (z :: l) d = last l z.
Proof.
  revert z d; induction l as [ | a l IH]; intros z d; [reflexivity | ].
  change (last (z :: a :: l) d) with (last (a :: l) d).
  rewrite (IH a d), (IH a z). reflexivity.
Qed.

Lemma rising_last (c : R) (up : list R) : rising c up -> c <= last up c.
Proof.
  revert c; induction up as [ | z up IH]; intros c H; cbn [rising] in H.
  - cbn; lra.
  - destruct H as [Hcz Hup]. rewrite last_cons. specialize (IH z Hup). lra.
Qed.

Lemma falling_last (c : R) (down : list R) : falling c down -> last down c <= c.
Proof.
  revert c; induction down as [ | z down IH]; intros c H; cbn [falling] in H.
  - cbn; lra.
  - destruct H as [Hcz Hdown]. rewrite last_cons. specialize (IH z Hdown). lra.
Qed.

Lemma rise_in_bottom (up : list R) (c t : R) (n : nat) :
  rising c up ->
  repRun up (RepState.mk "bottom" (Some t) (Some c) n)
  = RepState.mk "bottom" (Some t) (Some (last up c)) n.
Proof.
  revert c; induction up as [ | z up IH]; intros c H; [reflexivity | ].
  destruct H as [Hcz Hup].
  rewrite repRun_cons, rep_bottom_step, last_cons.
  rewrite (Rmax_right c z) by lra.
  rewrite (gtb_false (z - z) 40) by lra.
  cbn [andb fst]. apply IH, Hup.
Qed.

Lemma rise_in_top (up : list R) (c t : R) (b : option R) (n : nat) :
  rising c up -> t <= c -> c - t <= 52 ->
  repRun up (RepState.mk "top" (Some t) b n)
  = if gtb (last up c - t) 52
    then RepState.mk "bottom" (Some t) (Some (last up c)) n
    else RepState.mk "top" (Some t) b n.
Proof.
  revert c; induction up as [ | z up IH]; intros c H Htc Hc.
  - cbn [last]. rewrite gtb_false by lra. reflexivity.
  - destruct H as [Hcz Hup].
    rewrite repRun_cons, rep_top_step, last_cons.
    rewrite (Rmin_left t z) by lra.
    destruct (gtb_spec (z - t) 52) as [Hz | Hz]; cbn [fst].
    + rewrite rise_in_bottom by exact Hup.
      pose proof (rising_last z up Hup).
      rewrite gtb_true by lra. reflexivity.
    + apply IH; [exact Hup | lra | lra].
Qed.

Lemma fall_in_top (down : list R) (c : R) (b : option R) (n : nat) :
  falling c down ->
  repRun down (RepState.mk "top" (Some c) b n)
  = RepState.mk "top" (Some (last down c)) b n.
Proof.
  revert c; induction down as [ | z down IH]; intros c H; [reflexivity | ].
  destruct H as [Hzc Hdown].
  rewrite repRun_cons, rep_top_step, last_cons.
  rewrite (Rmin_right c z) by lra.
  rewrite (gtb_false (z - z) 52) by lra.
  cbn [fst]. apply IH, Hdown.
Qed.

Lemma fall_in_bottom (down : list R) (c t p : R) (n : nat) :
  falling c down -> c <= p -> p - c <= 40 -> p - t > 70 ->
  repRun down (RepState.mk "bottom" (Some t) (Some p) n)
  = if gtb (p - last down c) 40
    then RepState.mk "top" (Some (last down c)) (Some p) (n + 1)
    else RepState.mk "bottom" (Some t) (Some p) n.
Proof.
  revert c; induction down as [ | z down IH]; intros c H Hcp Hc Hrange.
  - cbn [last]. rewrite gtb_false by lra. reflexivity.
  - destruct H as [Hzc Hdown].
    rewrite repRun_cons, rep_bottom_step, last_cons.
    rewrite (Rmax_left p z) by lra.
    rewrite (gtb_true (p - t) 70) by lra.
    destruct (gtb_spec (p - z) 40) as [Hz | Hz]; cbn [andb fst].
    + rewrite fall_in_top by exact Hdown.
      pose proof (falling_last z down Hdown).
      rewrite gtb_true by lra. reflexivity.
    + apply IH; [exact Hdown | lra | lra | exact Hrange].
Qed.

(** One rise of more than 70 followed by one descent of more than 40,
    fed to a fresh machine. *)
Lemma repRun_single_rep (y0 : R) (up down : list R) :
  rising y0 up -> falling (last up y0) down ->
  last up y0 - y0 > 70 ->
  last up y0 - last down (last up y0) > 40 ->
  repRun (y0 :: up ++ down) initialRepState
  = RepState.mk "top" (Some (last down (last up y0))) (Some (last up y0)) 1.
Proof.
  intros Hup Hdown Hrise Hfall.
  unfold initialRepState.
  rewrite repRun_cons, rep_seed, repRun_app. cbn [fst].
  rewrite (rise_in_top up y0 y0) by (exact Hup || lra).
  rewrite gtb_true by lra.
  rewrite (fall_in_bottom down (last up y0)) by (exact Hdown || lra).
  rewrite gtb_true by lra. reflexivity.
Qed.

(** ** From frames to shoulder heights *)

Lemma processPose_skips (now : Z) (pose : Pose) (s : Session) :
  shoulderY pose = None -> processPose now pose s = (s, []).
Proof.
  unfold shoulderY, processPose.
  destruct (getPoint pose "left_shoulder"); [ | reflexivity].
  destruct (getPoint pose "right_shoulder"); [discriminate | reflexivity].
Qed.

Lemma processPose_repState (now : Z) (pose : Pose) (s : Session) (y : R) :
  shoulderY pose = Some y ->
  repStateRef (fst (processPose now pose s)) = fst (processPose_rep y (repStateRef s)).
Proof.
  unfold shoulderY, processPose.
  destruct (getPoint pose "left_shoulder") as [l | ]; [ | discriminate].
  destruct (getPoint pose "right_shoulder") as [r | ]; [ | discriminate].
  intros [= <-].
  destruct (processPose_rep _ _), (processPose_flush _ _). reflexivity.
Qed.

Lemma runFrames_cons (f : Frame) (frames : list Frame) (s : Session) :
  runFrames (f :: frames) s = runFrames frames (fst (processPose (fst f) (snd f) s)).
Proof. reflexivity. Qed.

Lemma runFrames_app (pre post : list Frame) (s : Session) :
  runFrames (pre ++ post) s = runFrames post (runFrames pre s).
Proof. apply fold_left_app. Qed.

Lemma runFrames_repState (frames : list Frame) (s : Session) :
  repStateRef (runFrames frames s) = repRun (shoulderTrack frames) (repStateRef s).
Proof.
  revert s; induction frames as [ | [now pose] frames IH]; intros s; [reflexivity | ].
  rewrite runFrames_cons, IH. cbn [fst snd shoulderTrack].
  destruct (shoulderY pose) as [y | ] eqn:Hy.
  - rewrite repRun_cons, (processPose_repState now pose s y Hy). reflexivity.
  - rewrite (processPose_skips now pose s Hy). reflexivity.
Qed.

Lemma shoulderTrack_app (pre post : list Frame) :
  shoulderTrack (pre ++ post) = shoulderTrack pre ++ shoulderTrack post.
Proof.
  induction pre as [ | f pre IH]; [reflexivity | ].
  cbn [app shoulderTrack]. destruct (shoulderY (snd f)); rewrite IH; reflexivity.
Qed.

Lemma shoulderY_shouldersAt (y : R) : shoulderY (shouldersAt y) = Some y.
Proof.
  unfold shoulderY, getPoint, shouldersAt; cbn.
  rewrite !(gtb_true 0.9 0.4) by lra. cbn.
  f_equal. lra.
Qed.

Lemma halfUlp_pos : 0 < halfUlp70 /\ 0 < halfUlp40.
Proof.
  unfold halfUlp70, halfUlp40.
  split; apply Rinv_0_lt_compat, pow_lt; lra.
Qed.

(** C1 (amended): a fresh rep machine fed shoulder heights that rise
    monotonically from the first height to a peak and then fall
    monotonically, where the rise from the first height to the peak
    exceeds 70 and the fall from the peak to the last height exceeds
    40 as the source computes them (the exact differences exceed
    70 + 2^-47 and 40 + 2^-48, so that their roundings to a double
    exceed 70 and 40), counts exactly one rep and ends in phase top. *)
Theorem single_rep (y0 : R) (up down : list R) :
  rising y0 up ->
  falling (last up y0) down ->
  last up y0 - y0 > 70 + halfUlp70 ->
  last up y0 - last down (last up y0) > 40 + halfUlp40 ->
  let state := repRun (y0 :: up ++ down) initialRepState in
  RepState.repCount state = 1%nat /\ RepState.phase state = "top"%string.
Proof.
  intros Hup Hdown Hrise Hfall state. subst state.
  destruct halfUlp_pos as [H70 H40].
  rewrite (repRun_single_rep y0 up down Hup Hdown) by lra.
  split; reflexivity.
Qed.

Lemma shoulderTrack_framesAt (now : Z) (ys : list R) :
  shoulderTrack (framesAt now ys) = ys.
Proof.
  revert now; induction ys as [ | y ys IH]; intros now; [reflexivity | ].
  cbn [framesAt shoulderTrack snd].
  rewrite shoulderY_shouldersAt, IH. reflexivity.
Qed.

Lemma single_rep_witness :
  let state := repRun [100; 180; 120] initialRepState in
  RepState.repCount state = 1%nat /\ RepState.phase state = "top"%string.
Proof.
  apply (single_rep 100 [180] [120]).
  - cbn; lra.
  - cbn; lra.
  - unfold halfUlp70; cbn; lra.
  - unfold halfUlp40; cbn; lra.
Defined.

(** C1 as stated fails: the heights 100, 160, 80 rise by 60, fall by 80
    and span 80, yet no rep is counted and the machine stays in phase
    bottom, because the rise from the first height to the peak is only
    60. *)
Lemma single_rep_excursion_counterexample :
  let ys := [100; 160; 80] in
  let state := repStateRef (runFrames (framesAt 0 ys) (initialSession 0)) in
  rising 100 [160] /\ falling 160 [80]
  /\ 160 - 100 > 52 /\ 160 - 80 > 40 /\ excursion ys > 70
  /\ RepState.repCount state = 0%nat /\ RepState.phase state = "bottom"%string.
Proof.
  cbv zeta.
  rewrite runFrames_repState, shoulderTrack_framesAt.
  cbn [initialSession repStateRef]. unfold initialRepState.
  rep_eval.
  repeat split; cbn; try lra.
  unfold excursion; cbn. rdecide. lra.
Qed.

(** ** The hysteresis gap *)

Lemma hysteresis_step (y : R) (st : RepState.t) :
  hysteresis st -> hysteresis (fst (processPose_rep y st)).
Proof.
  destruct st as [p [t | ] [b | ] n]; unfold hysteresis; cbn; try contradiction.
  - intros [-> | [-> Hgap]].
    + rewrite rep_top_step.
      destruct (gtb_spec (y - Rmin t y) 52) as [Hy | Hy]; cbn.
      * right. split; [reflexivity | exact Hy].
      * left. reflexivity.
    + rewrite rep_bottom_step.
      destruct (gtb (Rmax b y - y) 40 && gtb (Rmax b y - t) 70); cbn.
      * left. reflexivity.
      * right. split; [reflexivity | ]. pose proof (Rmax_l b y). lra.
  - intros ->. rewrite rep_seed. cbn. left. reflexivity.
Qed.

Lemma hysteresis_run (ys : list R) (st : RepState.t) :
  hysteresis st -> hysteresis (repRun ys st).
Proof.
  revert st; induction ys as [ | y ys IH]; intros st H; [exact H | ].
  rewrite repRun_cons. apply IH, hysteresis_step, H.
Qed.

(** C10: in every state a session reaches from its initial state,
    phase bottom comes with both extremes set and bottomY more than 52
    above topY. *)
Theorem hysteresis_gap (t0 : Z) (frames : list Frame) :
  let state := repStateRef (runFrames frames (initialSession t0)) in
  RepState.phase state = "bottom"%string ->
  exists t b, RepState.topY state = Some t /\ RepState.bottomY state = Some b
              /\ b - t > 52.
Proof.
  intros state Hphase.
  assert (H : hysteresis state).
  { subst state. rewrite runFrames_repState. apply hysteresis_run.
    cbn. reflexivity. }
  unfold hysteresis in H.
  destruct (RepState.topY state) as [t | ], (RepState.bottomY state) as [b | ];
    try contradiction.
  - exists t, b. destruct H as [H | [_ H]]; [ | auto].
    rewrite H in Hphase. discriminate.
  - rewrite H in Hphase. discriminate.
Qed.

Lemma hysteresis_gap_witness :
  let state := repStateRef (runFrames (framesAt 0 [100; 160]) (initialSession 0)) in
  exists t b, RepState.topY state = Some t /\ RepState.bottomY state = Some b
              /\ b - t > 52.
Proof.
  apply (hysteresis_gap 0 (framesAt 0 [100; 160])).
  rewrite runFrames_repState, shoulderTrack_framesAt.
  cbn [initialSession repStateRef]. unfold initialRepState.
  rep_eval. reflexivity.
Defined.

(** ** Shallow oscillations *)

Lemma fold_Rmax_upper (l : list R) (a : R) :
  a <= fold_left Rmax l a /\ Forall (fun y => y <= fold_left Rmax l a) l.
Proof.
  revert a; induction l as [ | z l IH]; intros a; cbn [fold_left].
  - split; [lra | constructor].
  - destruct (IH (Rmax a z)) as [Hm Hall].
    pose proof (Rmax_l a z). pose proof (Rmax_r a z).
    split; [lra | ]. constructor; [lra | exact Hall].
Qed.

Lemma fold_Rmin_lower (l : list R) (a : R) :
  fold_left Rmin l a <= a /\ Forall (fun y => fold_left Rmin l a <= y) l.
Proof.
  revert a; induction l as [ | z l IH]; intros a; cbn [fold_left].
  - split; [lra | constructor].
  - destruct (IH (Rmin a z)) as [Hm Hall].
    pose proof (Rmin_l a z). pose proof (Rmin_r a z).
    split; [lra | ]. constructor; [lra | exact Hall].
Qed.

Lemma excursion_bounds (ys : list R) :
  Forall (fun y => minY ys <= y <= maxY ys) ys.
Proof.
  destruct ys as [ | y0 rest]; [constructor | ].
  unfold minY, maxY.
  destruct (fold_Rmax_upper rest y0) as [Hmax Hmaxs].
  destruct (fold_Rmin_lower rest y0) as [Hmin Hmins].
  constructor; [lra | ].
  rewrite Forall_forall in *. intros y Hy.
  specialize (Hmaxs y Hy). specialize (Hmins y Hy). cbv beta in *. lra.
Qed.

Lemma band_step (lo y : R) (st : RepState.t) :
  in_band lo st -> lo <= y <= lo + 70 ->
  in_band lo (fst (processPose_rep y st))
  /\ RepState.repCount (fst (processPose_rep y st)) = RepState.repCount st
  /\ snd (processPose_rep y st) = [].
Proof.
  intros [Ht Hb] Hy.
  destruct st as [p t b n]; cbn [RepState.topY RepState.bottomY] in Ht, Hb.
  assert (Hmin : forall v, lo <= v <= lo + 70 -> lo <= Rmin v y <= lo + 70).
  { intros v Hv. unfold Rmin. destruct (Rle_dec v y); lra. }
  assert (Hmax : forall v, lo <= v <= lo + 70 -> lo <= Rmax v y <= lo + 70).
  { intros v Hv. unfold Rmax. destruct (Rle_dec v y); lra. }
  assert (Hclose : forall p' t' b' ev,
             (forall v, t' = Some v -> lo <= v <= lo + 70) ->
             (forall v, b' = Some v -> lo <= v <= lo + 70) ->
             ev = [] ->
             in_band lo (fst (RepState.mk p' t' b' n, ev))
             /\ RepState.repCount (fst (RepState.mk p' t' b' n, ev)) = n
             /\ snd (RepState.mk p' t' b' n, ev) = @nil Event).
  { intros p' t' b' ev H1 H2 ->. cbn [fst snd RepState.repCount].
    split; [split; cbn; assumption | split; reflexivity]. }
  assert (Hsome : forall u v : R, lo <= u <= lo + 70 -> Some u = Some v ->
                                  lo <= v <= lo + 70).
  { intros u v Hu [= <-]. exact Hu. }
  unfold processPose_rep.
  destruct t as [t | ]; cbn [RepState.topY RepState.bottomY RepState.phase
                              RepState.repCount Math_min Math_max option_map diff_gt].
  - specialize (Ht t eq_refl).
    destruct (String.eqb p "top").
    + destruct (gtb (y - Rmin t y) downThreshold);
        apply Hclose; eauto.
    + destruct (String.eqb p "bottom"); [ | apply Hclose; eauto; intros v [= <-]; exact Ht ].
      destruct b as [b | ]; cbn [Math_max option_map diff_gt andb].
      * specialize (Hb b eq_refl). specialize (Hmax b Hb).
        rewrite (gtb_false (Rmax b y - t) minimumRange)
          by (unfold minimumRange; lra).
        rewrite andb_false_r. apply Hclose; eauto.
      * apply Hclose; eauto.
  - destruct (String.eqb p "top").
    + rewrite (Rmin_left y y) by lra.
      rewrite (gtb_false (y - y) downThreshold) by (unfold downThreshold; lra).
      apply Hclose; eauto.
    + destruct (String.eqb p "bottom"); cbn [Math_max option_map diff_gt].
      * rewrite (gtb_false (Rmax y y - y) minimumRange)
          by (unfold minimumRange; rewrite Rmax_left; lra).
        rewrite andb_false_r. apply Hclose; eauto.
      * apply Hclose; eauto.
Qed.

(** From a state whose extremes lie in a band 70 wide, heights of the
    same band never count a rep. *)
Lemma repRun_band (lo : R) (ys : list R) (st : RepState.t) :
  in_band lo st -> Forall (fun y => lo <= y <= lo + 70) ys ->
  in_band lo (repRun ys st)
  /\ RepState.repCount (repRun ys st) = RepState.repCount st.
Proof.
  revert st; induction ys as [ | y ys IH]; intros st Hst Hys.
  - split; [exact Hst | reflexivity].
  - inversion Hys as [ | ? ? Hy Hrest]; subst.
    destruct (band_step lo y st Hst Hy) as (Hst' & Hcount & _).
    rewrite repRun_cons.
    destruct (IH _ Hst' Hrest) as [Hband Hc].
    split; [exact Hband | congruence].
Qed.

Lemma initial_in_band (lo : R) : in_band lo initialRepState.
Proof. split; intros v H; discriminate H. Qed.

(** C4 (amended): a rep machine fed from its initial state shoulder
    heights that span at most 70 still has repCount 0 after every
    prefix of them: no step counts a rep. *)
Theorem shallow_never_counts (ys pre post : list R) :
  excursion ys <= 70 ->
  ys = pre ++ post ->
  RepState.repCount (repRun pre initialRepState) = 0%nat.
Proof.
  intros Hexc ->.
  pose proof (excursion_bounds (pre ++ post)) as Hall.
  apply Forall_app in Hall. destruct Hall as [Hpre _].
  destruct (repRun_band (minY (pre ++ post)) pre initialRepState) as [_ Hc].
  - apply initial_in_band.
  - eapply Forall_impl; [ | exact Hpre]. cbv beta. unfold excursion in Hexc.
    intros y Hy. lra.
  - exact Hc.
Qed.

Lemma shallow_never_counts_witness :
  RepState.repCount (repRun [0; 60; 0] initialRepState) = 0%nat.
Proof.
  apply (shallow_never_counts [0; 60; 0] [0; 60; 0] []).
  - unfold excursion; cbn. rdecide. lra.
  - reflexivity.
Defined.

(** C4 as stated fails: from the state reached after the heights 0 and
    100 (phase bottom, topY 0, bottomY 100) the two heights 100 and 59,
    which span only 41, count a rep. *)
Lemma shallow_from_reachable_counterexample :
  let reached := runFrames (framesAt 0 [0; 100]) (initialSession 0) in
  let ys := [100; 59] in
  excursion ys <= 70
  /\ RepState.repCount (repStateRef reached) = 0%nat
  /\ RepState.repCount (repStateRef (runFrames (framesAt 32 ys) reached)) = 1%nat.
Proof.
  cbv zeta.
  rewrite !runFrames_repState, !shoulderTrack_framesAt.
  cbn [initialSession repStateRef]. unfold initialRepState.
  rep_eval.
  repeat split.
  unfold excursion; cbn. rdecide. lra.
Qed.

(** * The frame pipeline *)

Lemma getPoint_None (pose : Pose) (name : string) :
  unavailable pose name -> getPoint pose name = None.
Proof.
  unfold unavailable, getPoint. destruct pose as [kps]; cbn [keypoints].
  induction kps as [ | kp kps IH]; intros H; [reflexivity | ].
  cbn [find].
  destruct (String.eqb_spec (Keypoint.name kp) name) as [Hname | Hname]; cbn [andb].
  - rewrite gtb_false by (apply H; [left; reflexivity | exact Hname]).
    apply IH. intros kp' Hin. apply H. right. exact Hin.
  - apply IH. intros kp' Hin. apply H. right. exact Hin.
Qed.

Lemma getPoint_Some (pose : Pose) (name : string) (kp : Keypoint.t) :
  getPoint pose name = Some kp ->
  In kp (keypoints pose) /\ Keypoint.name kp = name /\ Keypoint.score kp > 0.4.
Proof.
  unfold getPoint. intros H. apply find_some in H. destruct H as [Hin Hkp].
  apply andb_true_iff in Hkp. destruct Hkp as [Hname Hscore].
  apply String.eqb_eq in Hname.
  destruct (gtb_spec (Keypoint.score kp) 0.4); [auto | discriminate].
Qed.

(** C9: when the left or the right shoulder is unavailable (no keypoint
    of that name with confidence above 0.4), [processPose] returns the
    session as it was, rep state and accumulators alike, and publishes
    nothing. *)
Theorem processPose_skips_frame (now : Z) (pose : Pose) (s : Session) :
  unavailable pose "left_shoulder" \/ unavailable pose "right_shoulder" ->
  processPose now pose s = (s, []).
Proof.
  intros H. apply processPose_skips. unfold shoulderY.
  destruct H as [H | H]; rewrite (getPoint_None _ _ H).
  - reflexivity.
  - destruct (getPoint pose "left_shoulder"); reflexivity.
Qed.

Lemma hiddenShoulder_unavailable : unavailable hiddenShoulderPose "left_shoulder".
Proof.
  intros kp Hin Hname. cbn in Hin.
  repeat (destruct Hin as [<- | Hin]; [first [discriminate Hname | cbn; lra] | ]).
  contradiction.
Qed.

Lemma processPose_skips_frame_witness :
  processPose 5000 hiddenShoulderPose (initialSession 0) = (initialSession 0, []).
Proof.
  apply (processPose_skips_frame 5000 hiddenShoulderPose (initialSession 0)).
  left. exact hiddenShoulder_unavailable.
Defined.

(** ** Accumulation and flush *)

Lemma rep_publishes_no_feedback (y : R) (st : RepState.t) :
  flushes (snd (processPose_rep y st)) = false.
Proof.
  unfold processPose_rep.
  repeat match goal with
         | |- context [match ?c with _ => _ end] => destruct c
         end; reflexivity.
Qed.

Lemma flushes_app (xs ys : list Event) :
  flushes (xs ++ ys) = flushes xs || flushes ys.
Proof. apply existsb_app. Qed.

Lemma processPose_stages (now : Z) (pose : Pose) (s : Session) (l r : Keypoint.t) :
  getPoint pose "left_shoulder" = Some l ->
  getPoint pose "right_shoulder" = Some r ->
  let rep := processPose_rep ((Keypoint.y l + Keypoint.y r) / 2) (repStateRef s) in
  let flush := processPose_flush now (processPose_accumulate pose l r (formStatsRef s)) in
  processPose now pose s
  = ({| repStateRef := fst rep; formStatsRef := fst flush |}, snd rep ++ snd flush).
Proof.
  intros Hl Hr rep flush. unfold processPose. rewrite Hl, Hr.
  subst rep flush.
  destruct (processPose_rep _ _), (processPose_flush _ _). reflexivity.
Qed.

Lemma nonempty_length (A : Type) (l : list A) : (0 <? List.length l)%nat = true <-> l <> [].
Proof.
  destruct l; cbn; split; intros H; try discriminate; try reflexivity.
  contradiction.
Qed.

Lemma flushDue_spec (now : Z) (stats : FormStats.t) :
  flushDue now stats = true <-> windowElapsed now stats.
Proof.
  unfold flushDue, windowElapsed.
  rewrite !andb_true_iff, !nonempty_length, Z.geb_le. intuition lia.
Qed.

Lemma flush_fires (now : Z) (stats : FormStats.t) :
  flushes (snd (processPose_flush now stats)) = flushDue now stats.
Proof. unfold processPose_flush. destruct (flushDue now stats); reflexivity. Qed.

Lemma accumulate_sequences (pose : Pose) (l r : Keypoint.t) (stats : FormStats.t) :
  getPoint pose "left_shoulder" = Some l ->
  getPoint pose "right_shoulder" = Some r ->
  exists a k t,
    sequences (processPose_accumulate pose l r stats)
    = (if allSixAvailable pose
       then (FormStats.angles stats ++ [a], FormStats.stacks stats ++ [k],
             FormStats.tilts stats ++ [t])
       else sequences stats)
    /\ FormStats.lastFeedbackTime (processPose_accumulate pose l r stats)
       = FormStats.lastFeedbackTime stats.
Proof.
  intros Hl Hr. unfold allSixAvailable, processPose_accumulate.
  cbn [forallb sixJoints]. rewrite Hl, Hr. cbn [isSome andb].
  destruct (getPoint pose "left_elbow") as [le | ];
    destruct (getPoint pose "right_elbow") as [re | ];
    destruct (getPoint pose "left_wrist") as [lw | ];
    destruct (getPoint pose "right_wrist") as [rw | ];
    cbn [isSome andb];
    try (exists 0, 0, 0; split; reflexivity).
  eexists _, _, _. split; reflexivity.
Qed.

Lemma equal_length_step (now : Z) (pose : Pose) (s : Session) :
  let before := formStatsRef s in
  let after := formStatsRef (fst (processPose now pose s)) in
  List.length (FormStats.angles before) = List.length (FormStats.stacks before) ->
  List.length (FormStats.stacks before) = List.length (FormStats.tilts before) ->
  List.length (FormStats.angles after) = List.length (FormStats.stacks after)
  /\ List.length (FormStats.stacks after) = List.length (FormStats.tilts after).
Proof.
  intros before after H1 H2. subst before after.
  destruct (shoulderY pose) as [y | ] eqn:Hy.
  2:{ rewrite (processPose_skips now pose s Hy). cbn [fst]. auto. }
  unfold shoulderY in Hy.
  destruct (getPoint pose "left_shoulder") as [l | ] eqn:Hl; [ | discriminate].
  destruct (getPoint pose "right_shoulder") as [r | ] eqn:Hr; [ | discriminate].
  rewrite (processPose_stages now pose s l r Hl Hr). cbn [fst formStatsRef].
  destruct (accumulate_sequences pose l r (formStatsRef s) Hl Hr)
    as (a & k & t & Hseq & _).
  unfold processPose_flush.
  destruct (flushDue now _); cbn [fst]; [cbn; auto | ].
  unfold sequences in Hseq.
  destruct (allSixAvailable pose); injection Hseq as -> -> ->.
  - rewrite !length_app. cbn. lia.
  - auto.
Qed.

Lemma equal_length_run (t0 : Z) (frames : list Frame) :
  let stats := formStatsRef (runFrames frames (initialSession t0)) in
  List.length (FormStats.angles stats) = List.length (FormStats.stacks stats)
  /\ List.length (FormStats.stacks stats) = List.length (FormStats.tilts stats).
Proof.
  cbv zeta.
  induction frames as [ | f frames IH] using rev_ind.
  - cbn. auto.
  - rewrite runFrames_app. cbn [runFrames fold_left].
    destruct IH as [H1 H2]. apply equal_length_step; assumption.
Qed.

(** C7 (amended): in every state a session reaches, the three
    sequences have equal length; a frame appends exactly one entry to
    each of them when all six joints are available and nothing to any
    of them otherwise, and the sequences the frame leaves behind are
    these, unless the flush fires on the frame, which empties all
    three. *)
Theorem accumulator_all_or_nothing
    (t0 : Z) (frames : list Frame) (now : Z) (pose : Pose) :
  let s := runFrames frames (initialSession t0) in
  let before := formStatsRef s in
  let result := processPose now pose s in
  let after := formStatsRef (fst result) in
  (List.length (FormStats.angles before) = List.length (FormStats.stacks before)
   /\ List.length (FormStats.stacks before) = List.length (FormStats.tilts before))
  /\ exists a k t,
      sequences after
      = if flushes (snd result) then ([], [], [])
        else if allSixAvailable pose
             then (FormStats.angles before ++ [a], FormStats.stacks before ++ [k],
                   FormStats.tilts before ++ [t])
             else sequences before.
Proof.
  intros s before result after. split; [apply equal_length_run | ].
  subst before result after.
  destruct (shoulderY pose) as [y | ] eqn:Hy.
  - unfold shoulderY in Hy.
    destruct (getPoint pose "left_shoulder") as [l | ] eqn:Hl; [ | discriminate].
    destruct (getPoint pose "right_shoulder") as [r | ] eqn:Hr; [ | discriminate].
    rewrite (processPose_stages now pose s l r Hl Hr). cbn [fst snd formStatsRef].
    rewrite flushes_app, rep_publishes_no_feedback, flush_fires. cbn [orb].
    destruct (accumulate_sequences pose l r (formStatsRef s) Hl Hr)
      as (a & k & t & Hseq & _).
    exists a, k, t. unfold processPose_flush.
    destruct (flushDue now _); cbn [fst]; [reflexivity | exact Hseq].
  - rewrite (processPose_skips now pose s Hy). cbn [fst snd flushes existsb].
    exists 0, 0, 0.
    replace (allSixAvailable pose) with false; [reflexivity | ].
    unfold allSixAvailable, shoulderY in *. cbn [forallb sixJoints].
    destruct (getPoint pose "left_shoulder"); cbn [isSome andb]; [ | reflexivity].
    destruct (getPoint pose "right_shoulder"); [discriminate | reflexivity].
Qed.

(** ** Sample frames *)

Lemma fullPose_points :
  getPoint fullPose "left_shoulder" = Some (Keypoint.mk "left_shoulder" 100 200 0.9)
  /\ getPoint fullPose "right_shoulder" = Some (Keypoint.mk "right_shoulder" 300 200 0.9)
  /\ getPoint fullPose "left_elbow" = Some (Keypoint.mk "left_elbow" 90 260 0.9)
  /\ getPoint fullPose "right_elbow" = Some (Keypoint.mk "right_elbow" 310 260 0.9)
  /\ getPoint fullPose "left_wrist" = Some (Keypoint.mk "left_wrist" 100 320 0.9)
  /\ getPoint fullPose "right_wrist" = Some (Keypoint.mk "right_wrist" 300 320 0.9).
Proof.
  unfold getPoint, fullPose; cbn.
  rewrite !(gtb_true 0.9 0.4) by lra. cbn. repeat split.
Qed.

Lemma shouldersAt_points (y : R) :
  getPoint (shouldersAt y) "left_shoulder" = Some (Keypoint.mk "left_shoulder" 0 y 0.9)
  /\ getPoint (shouldersAt y) "right_shoulder"
     = Some (Keypoint.mk "right_shoulder" 10 y 0.9)
  /\ getPoint (shouldersAt y) "left_elbow" = None
  /\ getPoint (shouldersAt y) "right_elbow" = None
  /\ getPoint (shouldersAt y) "left_wrist" = None
  /\ getPoint (shouldersAt y) "right_wrist" = None.
Proof.
  unfold getPoint, shouldersAt; cbn.
  rewrite !(gtb_true 0.9 0.4) by lra. cbn. repeat split.
Qed.

Lemma flushDue_early (now : Z) (stats : FormStats.t) :
  (now - FormStats.lastFeedbackTime stats < 3000)%Z -> flushDue now stats = false.
Proof.
  intros H. unfold flushDue.
  replace (now - FormStats.lastFeedbackTime stats >=? 3000)%Z with false
    by (symmetry; rewrite Z.geb_leb; apply Z.leb_gt; exact H).
  reflexivity.
Qed.

(** The statistics after one frame showing all six joints, 1000 ms into
    a session. *)
Lemma after_full_frame :
  exists a k t,
    formStatsRef (runFrames [(1000%Z, fullPose)] (initialSession 0))
    = FormStats.mk [a] [k] [t] 0.
Proof.
  destruct fullPose_points as (Hls & Hrs & Hle & Hre & Hlw & Hrw).
  cbn [runFrames fold_left fst snd].
  rewrite (processPose_stages _ _ _ _ _ Hls Hrs). cbn [fst formStatsRef initialSession].
  unfold processPose_accumulate. rewrite Hle, Hre, Hlw, Hrw.
  cbn [FormStats.angles FormStats.stacks FormStats.tilts FormStats.lastFeedbackTime app].
  unfold processPose_flush. rewrite flushDue_early by (cbn; lia).
  cbn [fst]. eexists _, _, _. reflexivity.
Qed.

(** C7 as stated fails: a frame that shows the shoulders but neither
    elbows nor wrists, processed once the window has elapsed, does not
    leave the three sequences unchanged: each held one entry before the
    frame and all three are empty after it. *)
Lemma missing_joint_flush_counterexample :
  let reached := runFrames [(1000%Z, fullPose)] (initialSession 0) in
  let after := fst (processPose 5000 (shouldersAt 200) reached) in
  allSixAvailable (shouldersAt 200) = false
  /\ List.length (FormStats.angles (formStatsRef reached)) = 1%nat
  /\ List.length (FormStats.stacks (formStatsRef reached)) = 1%nat
  /\ List.length (FormStats.tilts (formStatsRef reached)) = 1%nat
  /\ sequences (formStatsRef after) = ([], [], []).
Proof.
  cbv zeta.
  destruct (shouldersAt_points 200) as (Hls & Hrs & Hle & Hre & Hlw & Hrw).
  destruct after_full_frame as (a & k & t & Hreached).
  rewrite (processPose_stages _ _ _ _ _ Hls Hrs). cbn [fst formStatsRef].
  rewrite !Hreached.
  unfold allSixAvailable, processPose_accumulate. cbn [forallb sixJoints].
  rewrite Hls, Hrs, Hle, Hre, Hlw, Hrw.
  repeat split.
Qed.

(** ** The flush policy *)

(** C8 (amended): on a frame that shows both shoulders, the flush
    fires exactly when at least 3000 ms have passed since the last
    flush and the three sequences, as this frame's accumulation leaves
    them, are all non-empty; it then publishes the message and score
    that [interpretForm] gives for the three means, empties the
    sequences and sets the window start to now; otherwise the
    sequences and the window start stay as accumulated.  A frame
    lacking a shoulder never flushes. *)
Theorem flush_policy (now : Z) (pose : Pose) (s : Session) :
  let result := processPose now pose s in
  match getPoint pose "left_shoulder", getPoint pose "right_shoulder" with
  | Some leftShoulder, Some rightShoulder =>
      let stats := processPose_accumulate pose leftShoulder rightShoulder
                                          (formStatsRef s) in
      let form := interpretForm (average (FormStats.angles stats))
                                (average (FormStats.stacks stats))
                                (average (FormStats.tilts stats)) in
      (flushes (snd result) = true <-> windowElapsed now stats)
      /\ (windowElapsed now stats ->
          formStatsRef (fst result) = FormStats.mk [] [] [] now
          /\ exists published,
              flushes published = false
              /\ snd result = published ++ [setFeedback (Form.message form);
                                            setScore (Form.score form)])
      /\ (~ windowElapsed now stats -> formStatsRef (fst result) = stats)
  | _, _ => flushes (snd result) = false /\ fst result = s
  end.
Proof.
  intros result. subst result.
  destruct (getPoint pose "left_shoulder") as [l | ] eqn:Hl.
  2:{ unfold processPose. rewrite Hl. split; reflexivity. }
  destruct (getPoint pose "right_shoulder") as [r | ] eqn:Hr.
  2:{ unfold processPose. rewrite Hl, Hr. split; reflexivity. }
  cbv zeta. rewrite (processPose_stages now pose s l r Hl Hr).
  cbn [fst snd formStatsRef].
  rewrite flushes_app, rep_publishes_no_feedback, flush_fires. cbn [orb].
  split; [apply flushDue_spec | ].
  unfold processPose_flush. split.
  - intros Hdue. apply flushDue_spec in Hdue. rewrite Hdue. cbn [fst snd].
    split; [reflexivity | ].
    eexists. split; [apply rep_publishes_no_feedback | reflexivity].
  - intros Hnot.
    destruct (flushDue now _) eqn:Hdue; [ | reflexivity].
    apply flushDue_spec in Hdue. contradiction.
Qed.

(** C8 as stated fails: 5000 ms after the last flush, with one entry in
    each sequence, a frame whose left shoulder is below the confidence
    threshold is dropped before the flush check, so nothing is flushed
    although the window has elapsed and the sequences are non-empty. *)
Lemma flush_skipped_counterexample :
  let reached := runFrames [(1000%Z, fullPose)] (initialSession 0) in
  let result := processPose 5000 hiddenShoulderPose reached in
  windowElapsed 5000 (formStatsRef reached)
  /\ flushes (snd result) = false
  /\ fst result = reached.
Proof.
  cbv zeta.
  rewrite (processPose_skips 5000 hiddenShoulderPose).
  2:{ unfold shoulderY.
      rewrite (getPoint_None _ _ hiddenShoulder_unavailable). reflexivity. }
  destruct after_full_frame as (a & k & t & Hreached).
  split; [ | split; reflexivity].
  rewrite Hreached. unfold windowElapsed; cbn.
  repeat split; (lia || discriminate).
Qed.

Lemma flush_policy_witness :
  formStatsRef (fst (processPose 5000 (shouldersAt 200) bufferedSession))
  = FormStats.mk [] [] [] 5000.
Proof.
  pose proof (flush_policy 5000 (shouldersAt 200) bufferedSession) as H.
  destruct (shouldersAt_points 200) as (Hls & Hrs & Hle & Hre & Hlw & Hrw).
  rewrite Hls, Hrs in H. cbv zeta in H.
  destruct H as (_ & H & _).
  apply H.
  unfold processPose_accumulate. rewrite Hle.
  unfold windowElapsed; cbn.
  repeat split; (lia || discriminate).
Defined.

(** * Further properties *)

(** ** Keypoint lookup *)

Lemma find_first (A : Type) (f : A -> bool) (l : list A) (x : A) :
  find f l = Some x <->
  exists before after,
    l = before ++ x :: after /\ f x = true /\ Forall (fun y => f y = false) before.
Proof.
  split.
  - induction l as [ | a l IH]; cbn [find]; [discriminate | ].
    destruct (f a) eqn:Hfa.
    + intros [= <-]. exists [], l. repeat split; [exact Hfa | constructor].
    + intros H. destruct (IH H) as (before & after & -> & Hfx & Hall).
      exists (a :: before), after. repeat split; [exact Hfx | ].
      constructor; assumption.
  - intros (before & after & -> & Hfx & Hall).
    induction Hall as [ | a before Hfa _ IH]; cbn [find app].
    + rewrite Hfx. reflexivity.
    + rewrite Hfa. exact IH.
Qed.

Lemma getPoint_test (name : string) (kp : Keypoint.t) :
  String.eqb (Keypoint.name kp) name && gtb (Keypoint.score kp) 0.4 = false <->
  Keypoint.name kp <> name \/ Keypoint.score kp <= 0.4.
Proof.
  rewrite andb_false_iff.
  destruct (String.eqb_spec (Keypoint.name kp) name);
    destruct (gtb_spec (Keypoint.score kp) 0.4); split; intros [H | H];
    try discriminate; try contradiction; try lra; auto; right; lra.
Qed.

(** [getPoint] returns a keypoint exactly when it is the first one of
    the pose that bears the name with a confidence above 0.4: every
    keypoint listed before it has another name or a confidence of at
    most 0.4. *)
Theorem getPoint_first (pose : Pose) (name : string) (kp : Keypoint.t) :
  getPoint pose name = Some kp <->
  exists before after,
    keypoints pose = before ++ kp :: after
    /\ Keypoint.name kp = name /\ Keypoint.score kp > 0.4
    /\ Forall (fun k => Keypoint.name k <> name \/ Keypoint.score k <= 0.4) before.
Proof.
  unfold getPoint. rewrite find_first.
  split; intros (before & after & Heq & H).
  - exists before, after. split; [exact Heq | ].
    destruct H as [Hkp Hall].
    apply andb_true_iff in Hkp. destruct Hkp as [Hname Hscore].
    apply String.eqb_eq in Hname.
    destruct (gtb_spec (Keypoint.score kp) 0.4); [ | discriminate].
    repeat split; [assumption .. | ].
    eapply Forall_impl; [ | exact Hall]. intros k Hk. apply getPoint_test, Hk.
  - exists before, after. split; [exact Heq | ].
    destruct H as (Hname & Hscore & Hall). split.
    + rewrite (proj2 (String.eqb_eq _ _) Hname), gtb_true by exact Hscore.
      reflexivity.
    + eapply Forall_impl; [ | exact Hall]. intros k Hk. apply getPoint_test, Hk.
Qed.

(** [getPoint] finds nothing exactly when every keypoint of that name
    has a confidence of at most 0.4 (in particular when there is none). *)
Theorem getPoint_unavailable (pose : Pose) (name : string) :
  getPoint pose name = None <-> unavailable pose name.
Proof.
  split; [ | apply getPoint_None].
  unfold getPoint, unavailable. intros H kp Hin Hname.
  pose proof (find_none _ _ H kp Hin) as Hkp. cbv beta in Hkp.
  apply getPoint_test in Hkp. destruct Hkp; [contradiction | assumption].
Qed.

(** ** The interpreter's messages *)

Lemma interpretForm_cases (a s t : R) :
  interpretForm a s t
  = Form.mk
      (if gtb t 40 then msg_level_shoulders
       else if gtb s 90 then msg_stack_wrists
       else if ltb a 75 then msg_too_deep
       else if gtb a 150 then msg_lower_more
       else msg_nice_bend)
      (Rmax 60 (Rmin 100 (100 - (if ltb a 75 then 20 else if gtb a 150 then 15 else 0)
                              - (if gtb s 90 then 20 else 0)
                              - (if gtb t 40 then 15 else 0)))).
Proof.
  unfold interpretForm.
  destruct (ltb a 75), (gtb a 150), (gtb s 90), (gtb t 40); cbn;
    f_equal; f_equal; f_equal; lra.
Qed.

(** The message [interpretForm] starts from, "Solid pushup ...", is
    never returned: every result carries one of the five messages of
    the rules. *)
Theorem interpretForm_never_solid (averageElbowAngle averageStack shoulderTilt : R) :
  let message :=
    Form.message (interpretForm averageElbowAngle averageStack shoulderTilt) in
  In message [msg_too_deep; msg_lower_more; msg_nice_bend; msg_stack_wrists;
              msg_level_shoulders]
  /\ message <> msg_solid.
Proof.
  rewrite interpretForm_cases. cbn [Form.message].
  destruct (gtb shoulderTilt 40), (gtb averageStack 90), (ltb averageElbowAngle 75),
    (gtb averageElbowAngle 150);
    (split; [cbn; tauto | discriminate]).
Qed.

(** The score is 100 exactly when no rule fires: the elbow angle is
    within [75, 150], the wrist offset at most 90 and the tilt at most
    40; and exactly then the message is the "Nice elbow bend" one. *)
Theorem interpretForm_perfect (averageElbowAngle averageStack shoulderTilt : R) :
  let form := interpretForm averageElbowAngle averageStack shoulderTilt in
  let in_range := 75 <= averageElbowAngle <= 150 /\ averageStack <= 90
                  /\ shoulderTilt <= 40 in
  (Form.score form = 100 <-> in_range)
  /\ (Form.message form = msg_nice_bend <-> in_range).
Proof.
  rewrite interpretForm_cases. cbn [Form.message Form.score].
  destruct (gtb_spec shoulderTilt 40), (gtb_spec averageStack 90),
    (ltb_spec averageElbowAngle 75), (gtb_spec averageElbowAngle 150);
    rdecide; split; (split; [intros H | intros (H1 & H2 & H3)]);
    try lra; try discriminate H; try reflexivity.
Qed.

(** The last rule that fires decides the message: a tilt above 40
    gives the level-shoulders message whatever the other averages are;
    otherwise a wrist offset above 90 gives the stack-wrists message
    whatever the elbow angle is; only otherwise does the elbow rule
    show. *)
Theorem interpretForm_priority (averageElbowAngle averageStack shoulderTilt : R) :
  let message :=
    Form.message (interpretForm averageElbowAngle averageStack shoulderTilt) in
  (shoulderTilt > 40 -> message = msg_level_shoulders)
  /\ (shoulderTilt <= 40 -> averageStack > 90 -> message = msg_stack_wrists)
  /\ (shoulderTilt <= 40 -> averageStack <= 90 ->
      message = if ltb averageElbowAngle 75 then msg_too_deep
                else if gtb averageElbowAngle 150 then msg_lower_more
                else msg_nice_bend).
Proof.
  rewrite interpretForm_cases. cbn [Form.message].
  destruct (gtb_spec shoulderTilt 40), (gtb_spec averageStack 90);
    repeat split; intros; try lra; reflexivity.
Qed.

Lemma interpretForm_priority_witness :
  Form.message (interpretForm 60 100 50) = msg_level_shoulders
  /\ Form.message (interpretForm 60 100 10) = msg_stack_wrists.
Proof.
  split.
  - apply (proj1 (interpretForm_priority 60 100 50)). lra.
  - apply (proj1 (proj2 (interpretForm_priority 60 100 10))); lra.
Defined.

(** ** Counting *)

Lemma repRun_count_bounds (ys : list R) (st : RepState.t) :
  (RepState.repCount st <= RepState.repCount (repRun ys st)
   <= RepState.repCount st + List.length ys)%nat.
Proof.
  revert st; induction ys as [ | y ys IH]; intros st.
  - cbn. lia.
  - rewrite repRun_cons. specialize (IH (fst (processPose_rep y st))).
    pose proof (rep_step_count y st) as Hstep. cbv zeta in Hstep.
    cbn [List.length]. lia.
Qed.

(** Over any frames, from any session, [repCount] never decreases and
    grows by at most one per frame that shows both shoulders. *)
Theorem repCount_monotone (frames : list Frame) (s : Session) :
  let before := RepState.repCount (repStateRef s) in
  let after := RepState.repCount (repStateRef (runFrames frames s)) in
  (before <= after <= before + List.length (shoulderTrack frames))%nat.
Proof.
  cbv zeta. rewrite runFrames_repState. apply repRun_count_bounds.
Qed.

Lemma half_rep_step (y : R) (st : RepState.t) :
  (halfReps (fst (processPose_rep y st)) <= halfReps st + 1)%nat.
Proof.
  unfold halfReps, processPose_rep.
  destruct st as [p t b n].
  destruct t as [t | ]; cbn [RepState.topY RepState.phase RepState.repCount
                              RepState.bottomY];
    (destruct (String.eqb_spec p "top") as [-> | Htop];
     [ | destruct (String.eqb_spec p "bottom") as [-> | Hbottom] ]);
    repeat match goal with
           | |- context [if ?c then (_, _) else (_, _)] => destruct c
           end;
    cbn [fst RepState.phase RepState.repCount];
    repeat match goal with
           | |- context [String.eqb ?a ?b] => destruct (String.eqb_spec a b)
           end;
    try discriminate; try contradiction; lia.
Qed.

Lemma half_rep_run (ys : list R) (st : RepState.t) :
  (halfReps (repRun ys st) <= halfReps st + List.length ys)%nat.
Proof.
  revert st; induction ys as [ | y ys IH]; intros st.
  - cbn. lia.
  - rewrite repRun_cons. specialize (IH (fst (processPose_rep y st))).
    pose proof (half_rep_step y st) as Hstep.
    cbn [List.length]. lia.
Qed.

(** A rep takes at least two frames: in a session run from its initial
    state, twice the count is at most the number of frames that showed
    both shoulders. *)
Theorem rep_needs_two_frames (t0 : Z) (frames : list Frame) :
  (2 * RepState.repCount (repStateRef (runFrames frames (initialSession t0)))
   <= List.length (shoulderTrack frames))%nat.
Proof.
  rewrite runFrames_repState. cbn [initialSession repStateRef].
  pose proof (half_rep_run (shoulderTrack frames) initialRepState) as H.
  unfold halfReps in H.
  change (RepState.repCount initialRepState) with 0%nat in H.
  change (String.eqb (RepState.phase initialRepState) "bottom") with false in H.
  destruct (String.eqb _ "bottom") in H; lia.
Qed.

Lemma rep_counted_state (y : R) (st : RepState.t) :
  RepState.repCount (fst (processPose_rep y st)) = (RepState.repCount st + 1)%nat ->
  RepState.phase (fst (processPose_rep y st)) = "top"%string
  /\ RepState.topY (fst (processPose_rep y st)) = Some y.
Proof.
  unfold processPose_rep.
  repeat match goal with
         | |- context [match ?c with _ => _ end] => destruct c
         end; cbn; intros H; try lia; split; reflexivity.
Qed.

Lemma rep_top_keeps_count (y : R) (st : RepState.t) :
  RepState.phase st = "top"%string ->
  RepState.repCount (fst (processPose_rep y st)) = RepState.repCount st.
Proof.
  destruct st as [p t b n]; cbn [RepState.phase]. intros ->.
  unfold processPose_rep.
  destruct t; cbn [RepState.topY RepState.phase String.eqb Ascii.eqb Bool.eqb];
    match goal with
    | |- context [if ?c then (_, _) else (_, _)] => destruct c
    end; reflexivity.
Qed.

Lemma processPose_rep_or_skip (now : Z) (pose : Pose) (s : Session) :
  repStateRef (fst (processPose now pose s)) = repStateRef s
  \/ exists y, shoulderY pose = Some y
               /\ repStateRef (fst (processPose now pose s))
                  = fst (processPose_rep y (repStateRef s)).
Proof.
  destruct (shoulderY pose) as [y | ] eqn:Hy.
  - right. exists y. split; [reflexivity | apply processPose_repState, Hy].
  - left. rewrite (processPose_skips now pose s Hy). reflexivity.
Qed.

(** No two frames in a row count a rep: after a frame that increments
    [repCount], the next frame, whatever it shows, leaves the count as
    it is. *)
Theorem no_double_count (now1 now2 : Z) (pose1 pose2 : Pose) (s : Session) :
  let s1 := fst (processPose now1 pose1 s) in
  let s2 := fst (processPose now2 pose2 s1) in
  RepState.repCount (repStateRef s1) = (RepState.repCount (repStateRef s) + 1)%nat ->
  RepState.repCount (repStateRef s2) = RepState.repCount (repStateRef s1).
Proof.
  intros s1 s2 Hcount.
  assert (Htop : RepState.phase (repStateRef s1) = "top"%string).
  { subst s1. destruct (processPose_rep_or_skip now1 pose1 s) as [H | (y & _ & H)];
      rewrite H in *; [lia | ].
    apply rep_counted_state, Hcount. }
  subst s2. destruct (processPose_rep_or_skip now2 pose2 s1) as [H | (y & _ & H)];
    rewrite H; [reflexivity | ].
  apply rep_top_keeps_count, Htop.
Qed.

Lemma no_double_count_witness :
  let s := runFrames (framesAt 0 [0; 100]) (initialSession 0) in
  let s1 := fst (processPose 32 (shouldersAt 59) s) in
  let s2 := fst (processPose 48 (shouldersAt 200) s1) in
  RepState.repCount (repStateRef s2) = RepState.repCount (repStateRef s1).
Proof.
  apply (no_double_count 32 48 (shouldersAt 59) (shouldersAt 200)).
  rewrite (processPose_repState 32 _ _ 59) by apply shoulderY_shouldersAt.
  rewrite runFrames_repState, shoulderTrack_framesAt.
  cbn [initialSession repStateRef]. unfold initialRepState.
  rep_eval. reflexivity.
Defined.

(** ** The tracked extremes *)

Lemma tracked_step (ys : list R) (y : R) (st : RepState.t) :
  tracked ys st -> tracked (ys ++ [y]) (fst (processPose_rep y st)).
Proof.
  assert (Hy : In y (ys ++ [y])) by (apply in_or_app; right; left; reflexivity).
  assert (Hold : forall v, In v ys -> In v (ys ++ [y]))
    by (intros v Hv; apply in_or_app; left; exact Hv).
  destruct st as [p [t | ] [b | ] n]; unfold tracked; cbn;
    intros [Hphase H]; try contradiction.
  - destruct H as (Htb & Ht & Hb).
    destruct Hphase as [-> | ->].
    + rewrite rep_top_step.
      assert (Hmin : Rmin t y <= t /\ Rmin t y <= y /\ In (Rmin t y) (ys ++ [y])).
      { unfold Rmin. destruct (Rle_dec t y); repeat split; auto; lra. }
      destruct Hmin as (Hm1 & Hm2 & Hm3).
      destruct (gtb (y - Rmin t y) 52); cbn;
        (split; [auto | repeat split; auto; lra]).
    + rewrite rep_bottom_step.
      assert (Hmax : b <= Rmax b y /\ y <= Rmax b y /\ In (Rmax b y) (ys ++ [y])).
      { unfold Rmax. destruct (Rle_dec b y); repeat split; auto; lra. }
      destruct Hmax as (Hm1 & Hm2 & Hm3).
      destruct (gtb (Rmax b y - y) 40 && gtb (Rmax b y - t) 70); cbn;
        (split; [auto | repeat split; auto; lra]).
  - destruct Hphase as [-> | ->].
    + rewrite rep_seed. cbn. split; [auto | repeat split; auto; lra].
    + subst ys. cbn.
      rewrite Rmax_left by lra.
      repeat match goal with
             | |- context [gtb (y - y) ?c] =>
                 rewrite (gtb_false (y - y) c)
                   by (unfold upThreshold, minimumRange; lra)
             end.
      cbn. repeat split; auto; lra.
Qed.

Lemma tracked_run (ys pre : list R) (st : RepState.t) :
  tracked pre st -> tracked (pre ++ ys) (repRun ys st).
Proof.
  revert pre st; induction ys as [ | y ys IH]; intros pre st H.
  - rewrite app_nil_r. exact H.
  - rewrite repRun_cons.
    replace (pre ++ y :: ys) with ((pre ++ [y]) ++ ys)
      by (rewrite <- app_assoc; reflexivity).
    apply IH, tracked_step, H.
Qed.

(** In every state a session reaches from its initial state the phase
    is "top" or "bottom"; [topY] and [bottomY] are unset exactly as
    long as no frame showed both shoulders, and afterwards both are
    shoulder heights that were observed, with [topY] at most
    [bottomY]. *)
Theorem extremes_tracked (t0 : Z) (frames : list Frame) :
  let state := repStateRef (runFrames frames (initialSession t0)) in
  let ys := shoulderTrack frames in
  (RepState.phase state = "top"%string \/ RepState.phase state = "bottom"%string)
  /\ match RepState.topY state, RepState.bottomY state with
     | None, None => ys = []
     | Some t, Some b => t <= b /\ In t ys /\ In b ys
     | _, _ => False
     end.
Proof.
  cbv zeta. rewrite runFrames_repState. cbn [initialSession repStateRef].
  apply (tracked_run (shoulderTrack frames) [] initialRepState).
  split; [left | ]; reflexivity.
Qed.

(** ** What the page shows *)

Lemma render_app (xs ys : list Event) (v : View.t) :
  render (xs ++ ys) v = render ys (render xs v).
Proof. apply fold_left_app. Qed.

Lemma runFrames_runEvents_app (pre post : list Frame) (s : Session) :
  runEvents (pre ++ post) s = runEvents pre s ++ runEvents post (runFrames pre s).
Proof.
  revert s; induction pre as [ | f pre IH]; intros s; [reflexivity | ].
  cbn [app runEvents]. rewrite runFrames_cons, IH, app_assoc. reflexivity.
Qed.

Lemma render_rep_events (y : R) (st : RepState.t) (v : View.t) :
  View.repCount v = RepState.repCount st ->
  let v' := render (snd (processPose_rep y st)) v in
  View.repCount v' = RepState.repCount (fst (processPose_rep y st))
  /\ View.feedback v' = View.feedback v /\ View.score v' = View.score v.
Proof.
  intros Hv. unfold processPose_rep.
  repeat match goal with
         | |- context [match ?c with _ => _ end] => destruct c
         end; cbn; auto.
Qed.

Lemma render_flush_events (now : Z) (stats : FormStats.t) (v : View.t) :
  let v' := render (snd (processPose_flush now stats)) v in
  View.repCount v' = View.repCount v
  /\ (v' = v
      \/ exists a s t, View.feedback v' = Form.message (interpretForm a s t)
                       /\ View.score v' = Form.score (interpretForm a s t)).
Proof.
  unfold processPose_flush. destruct (flushDue now stats); cbn.
  - split; [reflexivity | ]. right. eexists _, _, _. split; reflexivity.
  - auto.
Qed.

(** What one frame does to the page. *)
Lemma render_frame (now : Z) (pose : Pose) (s : Session) (v : View.t) :
  View.repCount v = RepState.repCount (repStateRef s) ->
  let result := processPose now pose s in
  let v' := render (snd result) v in
  View.repCount v' = RepState.repCount (repStateRef (fst result))
  /\ ((View.feedback v' = View.feedback v /\ View.score v' = View.score v)
      \/ exists a k t, View.feedback v' = Form.message (interpretForm a k t)
                       /\ View.score v' = Form.score (interpretForm a k t)).
Proof.
  intros Hv. cbv zeta.
  destruct (shoulderY pose) as [y | ] eqn:Hy.
  2:{ rewrite (processPose_skips now pose s Hy). cbn. auto. }
  unfold shoulderY in Hy.
  destruct (getPoint pose "left_shoulder") as [l | ] eqn:Hl; [ | discriminate].
  destruct (getPoint pose "right_shoulder") as [r | ] eqn:Hr; [ | discriminate].
  rewrite (processPose_stages now pose s l r Hl Hr). cbn [fst snd repStateRef].
  rewrite render_app.
  destruct (render_rep_events ((Keypoint.y l + Keypoint.y r) / 2) (repStateRef s) v Hv)
    as (Hc & Hf & Hs).
  match goal with
  | |- context [render (snd (processPose_flush ?n ?st)) ?w] =>
      destruct (render_flush_events n st w) as (Hc' & [Hsame | (a & k & t & Hm & Hsc)])
  end.
  - rewrite Hsame. auto.
  - split; [congruence | ]. right. exists a, k, t. auto.
Qed.

Lemma score_values (a s t : R) :
  exists n : Z, Form.score (interpretForm a s t) = IZR n /\ (60 <= n <= 100)%Z.
Proof.
  rewrite interpretForm_cases. cbn [Form.score].
  destruct (ltb a 75), (gtb a 150), (gtb s 90), (gtb t 40); rdecide;
    first [ exists 100%Z; split; [lra | lia]
          | exists 85%Z; split; [lra | lia]
          | exists 80%Z; split; [lra | lia]
          | exists 70%Z; split; [lra | lia]
          | exists 65%Z; split; [lra | lia]
          | exists 60%Z; split; [lra | lia] ].
Qed.

Lemma message_values (a s t : R) :
  In (Form.message (interpretForm a s t))
     [msg_too_deep; msg_lower_more; msg_nice_bend; msg_stack_wrists;
      msg_level_shoulders].
Proof.
  rewrite interpretForm_cases. cbn [Form.message].
  destruct (gtb t 40), (gtb s 90), (ltb a 75), (gtb a 150); cbn; tauto.
Qed.

(** The page after a session: the count equals the one in the ref, the
    score is an integer of [60, 100], the feedback is the start message
    or a message of a rule. *)
Lemma page_invariant (t0 : Z) (frames : list Frame) :
  let v := render (runEvents frames (initialSession t0)) initialView in
  View.repCount v
  = RepState.repCount (repStateRef (runFrames frames (initialSession t0)))
  /\ (exists n : Z, View.score v = IZR n /\ (60 <= n <= 100)%Z)
  /\ In (View.feedback v)
        [msg_start; msg_too_deep; msg_lower_more; msg_nice_bend; msg_stack_wrists;
         msg_level_shoulders].
Proof.
  cbv zeta. induction frames as [ | f frames IH] using rev_ind.
  - cbn. split; [reflexivity | ]. split; [ | auto].
    exists 100%Z. split; [reflexivity | lia].
  - rewrite runFrames_runEvents_app, runFrames_app, render_app.
    cbn [runFrames runEvents fold_left]. rewrite app_nil_r.
    destruct IH as (Hc & Hs & Hf).
    destruct (render_frame (fst f) (snd f) _ _ Hc)
      as (Hc' & [[Hf' Hs'] | (a & k & t & Hf' & Hs')]).
    + split; [exact Hc' | ]. rewrite Hf', Hs'. auto.
    + split; [exact Hc' | ]. rewrite Hf', Hs'.
      split; [apply score_values | right; apply message_values].
Qed.

(** The rep count on the page always equals the count held in the ref:
    every increment is published, and nothing else touches it. *)
Theorem page_count_in_sync (t0 : Z) (frames : list Frame) :
  View.repCount (render (runEvents frames (initialSession t0)) initialView)
  = RepState.repCount (repStateRef (runFrames frames (initialSession t0))).
Proof. apply page_invariant. Qed.

(** Whatever the frames, the score on the page is an integer of
    [60, 100], and the feedback on the page is the start message or
    one of the five rule messages. *)
Theorem page_score_and_feedback (t0 : Z) (frames : list Frame) :
  let v := render (runEvents frames (initialSession t0)) initialView in
  (exists n : Z, View.score v = IZR n /\ (60 <= n <= 100)%Z)
  /\ In (View.feedback v)
        [msg_start; msg_too_deep; msg_lower_more; msg_nice_bend; msg_stack_wrists;
         msg_level_shoulders].
Proof. apply page_invariant. Qed.

(** ** Inside a feedback window *)

Lemma allSix_needs_shoulders (pose : Pose) :
  shoulderY pose = None -> allSixAvailable pose = false.
Proof.
  unfold allSixAvailable, shoulderY. cbn [forallb sixJoints].
  destruct (getPoint pose "left_shoulder"); cbn [isSome andb]; [ | reflexivity].
  destruct (getPoint pose "right_shoulder"); [discriminate | reflexivity].
Qed.

Lemma window_frame (now : Z) (pose : Pose) (s : Session) :
  (now - FormStats.lastFeedbackTime (formStatsRef s) < 3000)%Z ->
  let result := processPose now pose s in
  flushes (snd result) = false
  /\ FormStats.lastFeedbackTime (formStatsRef (fst result))
     = FormStats.lastFeedbackTime (formStatsRef s)
  /\ exists a k t,
      sequences (formStatsRef (fst result))
      = if allSixAvailable pose
        then (FormStats.angles (formStatsRef s) ++ [a],
              FormStats.stacks (formStatsRef s) ++ [k],
              FormStats.tilts (formStatsRef s) ++ [t])
        else sequences (formStatsRef s).
Proof.
  intros Hearly. cbv zeta.
  destruct (shoulderY pose) as [y | ] eqn:Hy.
  2:{ rewrite (processPose_skips now pose s Hy), (allSix_needs_shoulders pose Hy).
      cbn [fst snd]. split; [reflexivity | split; [reflexivity | ]].
      exists 0, 0, 0. reflexivity. }
  unfold shoulderY in Hy.
  destruct (getPoint pose "left_shoulder") as [l | ] eqn:Hl; [ | discriminate].
  destruct (getPoint pose "right_shoulder") as [r | ] eqn:Hr; [ | discriminate].
  rewrite (processPose_stages now pose s l r Hl Hr). cbn [fst snd formStatsRef].
  destruct (accumulate_sequences pose l r (formStatsRef s) Hl Hr)
    as (a & k & t & Hseq & Hlast).
  rewrite flushes_app, rep_publishes_no_feedback. cbn [orb].
  unfold processPose_flush.
  rewrite flushDue_early by (rewrite Hlast; exact Hearly).
  cbn [fst snd]. split; [reflexivity | split; [exact Hlast | ]].
  exists a, k, t. exact Hseq.
Qed.

Lemma fullFrames_cons (f : Frame) (frames : list Frame) :
  fullFrames (f :: frames)
  = ((if allSixAvailable (snd f) then 1 else 0) + fullFrames frames)%nat.
Proof.
  unfold fullFrames. cbn [filter]. destruct (allSixAvailable (snd f)); reflexivity.
Qed.

Lemma window_run (frames : list Frame) (s : Session) :
  withinWindow (FormStats.lastFeedbackTime (formStatsRef s)) frames ->
  flushes (runEvents frames s) = false
  /\ FormStats.lastFeedbackTime (formStatsRef (runFrames frames s))
     = FormStats.lastFeedbackTime (formStatsRef s)
  /\ exists da ds dt,
      sequences (formStatsRef (runFrames frames s))
      = (FormStats.angles (formStatsRef s) ++ da,
         FormStats.stacks (formStatsRef s) ++ ds,
         FormStats.tilts (formStatsRef s) ++ dt)
      /\ List.length da = fullFrames frames
      /\ List.length ds = fullFrames frames
      /\ List.length dt = fullFrames frames.
Proof.
  unfold withinWindow.
  revert s; induction frames as [ | [now pose] frames IH]; intros s Hall.
  - cbn [runEvents runFrames fold_left].
    split; [reflexivity | split; [reflexivity | ]].
    exists [], [], []. rewrite !app_nil_r. repeat split.
  - inversion Hall as [ | ? ? Hnow Hrest]; subst. cbn [fst] in Hnow.
    destruct (window_frame now pose s Hnow) as (Hf & Hlast & a & k & t & Hseq).
    cbv zeta in Hf, Hlast, Hseq.
    rewrite runFrames_cons. cbn [runEvents fst snd].
    rewrite <- Hlast in Hrest.
    destruct (IH _ Hrest) as (Hf' & Hlast' & da & ds & dt & Hseq' & Ha & Hs & Ht).
    rewrite flushes_app, Hf, Hf'. split; [reflexivity | ].
    split; [congruence | ].
    rewrite fullFrames_cons. cbn [snd].
    unfold sequences in Hseq. rewrite Hseq'.
    destruct (allSixAvailable pose); injection Hseq as -> -> ->.
    + exists (a :: da), (k :: ds), (t :: dt).
      rewrite <- !app_assoc. cbn [app List.length]. repeat split; lia.
    + exists da, ds, dt. repeat split; assumption.
Qed.

(** Feedback comes at most once per window: as long as every frame is
    processed less than 3000 ms after the last flush, no frame flushes
    and the window start stays where it was. *)
Theorem no_flush_within_window (frames : list Frame) (s : Session) :
  withinWindow (FormStats.lastFeedbackTime (formStatsRef s)) frames ->
  flushes (runEvents frames s) = false
  /\ FormStats.lastFeedbackTime (formStatsRef (runFrames frames s))
     = FormStats.lastFeedbackTime (formStatsRef s).
Proof.
  intros H. destruct (window_run frames s H) as (Hf & Hlast & _). auto.
Qed.

Lemma no_flush_within_window_witness :
  flushes (runEvents [(1000%Z, fullPose); (2000%Z, fullPose)] (initialSession 0)) = false
  /\ FormStats.lastFeedbackTime
       (formStatsRef (runFrames [(1000%Z, fullPose); (2000%Z, fullPose)]
                                (initialSession 0)))
     = FormStats.lastFeedbackTime (formStatsRef (initialSession 0)).
Proof.
  apply (no_flush_within_window [(1000%Z, fullPose); (2000%Z, fullPose)]
                                (initialSession 0)).
  repeat constructor; cbn; lia.
Defined.

(** Nothing is lost inside a window: while every frame is processed
    less than 3000 ms after the last flush, the entries already
    buffered stay in place and each sequence grows by exactly the
    number of frames that showed all six joints. *)
Theorem window_accumulates (frames : list Frame) (s : Session) :
  withinWindow (FormStats.lastFeedbackTime (formStatsRef s)) frames ->
  exists da ds dt,
    sequences (formStatsRef (runFrames frames s))
    = (FormStats.angles (formStatsRef s) ++ da,
       FormStats.stacks (formStatsRef s) ++ ds,
       FormStats.tilts (formStatsRef s) ++ dt)
    /\ List.length da = fullFrames frames
    /\ List.length ds = fullFrames frames
    /\ List.length dt = fullFrames frames.
Proof.
  intros H. destruct (window_run frames s H) as (_ & _ & Hseq). exact Hseq.
Qed.

Lemma window_accumulates_witness :
  exists da ds dt,
    sequences (formStatsRef (runFrames [(1000%Z, fullPose); (2000%Z, shouldersAt 200)]
                                       bufferedSession))
    = ([90] ++ da, [10] ++ ds, [5] ++ dt)
    /\ List.length da = fullFrames [(1000%Z, fullPose); (2000%Z, shouldersAt 200)]
    /\ List.length ds = fullFrames [(1000%Z, fullPose); (2000%Z, shouldersAt 200)]
    /\ List.length dt = fullFrames [(1000%Z, fullPose); (2000%Z, shouldersAt 200)].
Proof.
  apply (window_accumulates [(1000%Z, fullPose); (2000%Z, shouldersAt 200)]
                            bufferedSession).
  repeat constructor; cbn; lia.
Defined.

(** ** Buffered values *)

Lemma accumulate_ranges (pose : Pose) (l r : Keypoint.t) (stats : FormStats.t) :
  in_ranges stats -> in_ranges (processPose_accumulate pose l r stats).
Proof.
  intros (Hs & Ht). unfold processPose_accumulate.
  destruct (getPoint pose "left_elbow") as [le | ]; [ | split; assumption].
  destruct (getPoint pose "right_elbow") as [re | ]; [ | split; assumption].
  destruct (getPoint pose "left_wrist") as [lw | ]; [ | split; assumption].
  destruct (getPoint pose "right_wrist") as [rw | ]; [ | split; assumption].
  unfold in_ranges; cbn [FormStats.stacks FormStats.tilts].
  split; apply Forall_app; (split; [assumption | ]);
    (apply Forall_cons; [ | apply Forall_nil]).
  - pose proof (Rabs_pos (Keypoint.x l - Keypoint.x lw)).
    pose proof (Rabs_pos (Keypoint.x r - Keypoint.x rw)). lra.
  - apply Rabs_pos.
Qed.

Lemma frame_ranges (now : Z) (pose : Pose) (s : Session) :
  in_ranges (formStatsRef s) -> in_ranges (formStatsRef (fst (processPose now pose s))).
Proof.
  intros H.
  destruct (shoulderY pose) as [y | ] eqn:Hy.
  2:{ rewrite (processPose_skips now pose s Hy). exact H. }
  unfold shoulderY in Hy.
  destruct (getPoint pose "left_shoulder") as [l | ] eqn:Hl; [ | discriminate].
  destruct (getPoint pose "right_shoulder") as [r | ] eqn:Hr; [ | discriminate].
  rewrite (processPose_stages now pose s l r Hl Hr). cbn [fst formStatsRef].
  unfold processPose_flush. destruct (flushDue now _); cbn [fst].
  - split; constructor.
  - apply accumulate_ranges, H.
Qed.

(** In every state a session reaches from its initial state, every
    buffered wrist offset and every buffered shoulder tilt is
    non-negative. *)
Theorem buffered_ranges (t0 : Z) (frames : list Frame) :
  let stats := formStatsRef (runFrames frames (initialSession t0)) in
  Forall (fun k => 0 <= k) (FormStats.stacks stats)
  /\ Forall (fun t => 0 <= t) (FormStats.tilts stats).
Proof.
  cbv zeta. change (in_ranges (formStatsRef (runFrames frames (initialSession t0)))).
  induction frames as [ | f frames IH] using rev_ind.
  - split; constructor.
  - rewrite runFrames_app. cbn [runFrames fold_left]. apply frame_ranges, IH.
Qed.

(** ** The skeleton overlay *)

Lemma filter_flat_map (A B : Type) (p : B -> bool) (f : A -> list B) (l : list A) :
  filter p (flat_map f l) = flat_map (fun a => filter p (f a)) l.
Proof.
  induction l as [ | a l IH]; [reflexivity | ].
  cbn [flat_map]. rewrite filter_app, IH. reflexivity.
Qed.

Lemma flat_map_nil (A B : Type) (f : A -> list B) (l : list A) :
  (forall a, In a l -> f a = []) -> flat_map f l = [].
Proof.
  induction l as [ | a l IH]; intros H; [reflexivity | ].
  cbn [flat_map]. rewrite (H a) by (left; reflexivity).
  apply IH. intros b Hb. apply H. right. exact Hb.
Qed.

Lemma drawSegment_no_arc (keypoints : list Keypoint.t) (pair : string * string) :
  filter is_arc (drawSegment keypoints pair) = [].
Proof.
  unfold drawSegment. destruct pair as [a b].
  destruct (getKP keypoints a), (getKP keypoints b); try reflexivity.
  destruct (gtb _ _ && gtb _ _); reflexivity.
Qed.

Lemma drawDot_arcs (keypoints : list Keypoint.t) :
  flat_map (fun kp => filter is_arc (drawDot kp)) keypoints
  = map dotAt (filter is_confident keypoints).
Proof.
  induction keypoints as [ | kp kps IH]; [reflexivity | ].
  cbn [flat_map filter]. unfold drawDot at 1, is_confident at 1.
  destruct (gtb (Keypoint.score kp) 0.4); cbn; rewrite IH; reflexivity.
Qed.

(** On a mounted canvas [drawSkeleton] draws exactly one dot of radius
    5, a full circle, on each keypoint whose confidence is above 0.4,
    in the order of the pose, and no other arc. *)
Theorem drawSkeleton_dots (canvas : Canvas.t) (pose : Pose) :
  filter is_arc (drawSkeleton (Some canvas) pose)
  = map dotAt (filter is_confident (keypoints pose)).
Proof.
  unfold drawSkeleton. rewrite !filter_app, !filter_flat_map.
  rewrite (flat_map_nil _ _ (fun pair => filter is_arc (drawSegment _ pair)))
    by (intros; apply drawSegment_no_arc).
  rewrite drawDot_arcs. cbn. rewrite app_nil_r. reflexivity.
Qed.

Lemma getKP_In (keypoints : list Keypoint.t) (name : string) (kp : Keypoint.t) :
  getKP keypoints name = Some kp -> In kp keypoints /\ Keypoint.name kp = name.
Proof.
  unfold getKP. intros H. apply find_some in H. destruct H as [Hin Hname].
  split; [exact Hin | apply String.eqb_eq, Hname].
Qed.

Lemma drawDot_no_point (kp : Keypoint.t) : filter is_point (drawDot kp) = [].
Proof. unfold drawDot. destruct (gtb _ _); reflexivity. Qed.

Lemma drawSegment_points (keypoints : list Keypoint.t) (pair : string * string)
    (d : Draw) :
  In d (drawSegment keypoints pair) -> is_point d = true ->
  exists kp, In kp keypoints /\ Keypoint.score kp > 0.4
             /\ (Keypoint.name kp = fst pair \/ Keypoint.name kp = snd pair)
             /\ (d = moveTo (Keypoint.x kp) (Keypoint.y kp)
                 \/ d = lineTo (Keypoint.x kp) (Keypoint.y kp)).
Proof.
  unfold drawSegment. destruct pair as [a b]. cbn [fst snd].
  destruct (getKP keypoints a) as [kpA | ] eqn:HA; [ | contradiction].
  destruct (getKP keypoints b) as [kpB | ] eqn:HB; [ | contradiction].
  apply getKP_In in HA, HB. destruct HA as [HAin HAname], HB as [HBin HBname].
  destruct (gtb_spec (Keypoint.score kpA) 0.4); [ | contradiction].
  destruct (gtb_spec (Keypoint.score kpB) 0.4); [ | contradiction].
  cbn [andb In]. intros [<- | [<- | [<- | [<- | []]]]] Hp; try discriminate Hp.
  - exists kpA. auto.
  - exists kpB. auto.
Qed.

(** Every segment end that [drawSkeleton] draws is the position of a
    keypoint of the pose whose confidence is above 0.4 and whose name
    is a joint of [adjacentPairs]. *)
Theorem drawSkeleton_segment_ends (canvas : option Canvas.t) (pose : Pose) (d : Draw) :
  In d (drawSkeleton canvas pose) -> is_point d = true ->
  exists kp pair,
    In kp (keypoints pose) /\ Keypoint.score kp > 0.4
    /\ In pair adjacentPairs
    /\ (Keypoint.name kp = fst pair \/ Keypoint.name kp = snd pair)
    /\ (d = moveTo (Keypoint.x kp) (Keypoint.y kp)
        \/ d = lineTo (Keypoint.x kp) (Keypoint.y kp)).
Proof.
  unfold drawSkeleton. destruct canvas as [canvas | ]; [ | contradiction].
  intros Hin Hp.
  apply in_app_or in Hin. destruct Hin as [[<- | []] | Hin]; [discriminate Hp | ].
  apply in_app_or in Hin. destruct Hin as [Hin | Hin].
  { assert (Hd : In d (filter is_point (flat_map drawDot (keypoints pose))))
      by (apply filter_In; auto).
    rewrite filter_flat_map, flat_map_nil in Hd; [contradiction | ].
    intros; apply drawDot_no_point. }
  apply in_app_or in Hin.
  destruct Hin as [[<- | [<- | []]] | Hin]; try discriminate Hp.
  apply in_flat_map in Hin. destruct Hin as (pair & Hpair & Hd).
  destruct (drawSegment_points _ _ _ Hd Hp) as (kp & H1 & H2 & H3 & H4).
  exists kp, pair. auto.
Qed.

Lemma drawSkeleton_segment_ends_witness :
  exists kp pair,
    In kp (keypoints camelPose) /\ Keypoint.score kp > 0.4
    /\ In pair adjacentPairs
    /\ (Keypoint.name kp = fst pair \/ Keypoint.name kp = snd pair)
    /\ (moveTo 100 200 = moveTo (Keypoint.x kp) (Keypoint.y kp)
        \/ moveTo 100 200 = lineTo (Keypoint.x kp) (Keypoint.y kp)).
Proof.
  apply (drawSkeleton_segment_ends (Some (Canvas.mk 960 540)) camelPose (moveTo 100 200)).
  - unfold drawSkeleton, camelPose. cbn [keypoints].
    apply in_or_app. right. apply in_or_app. right. apply in_or_app. right.
    cbn [adjacentPairs flat_map]. apply in_or_app. left.
    unfold drawSegment, getKP. cbn.
    rewrite !(gtb_true 0.9 0.4) by lra. cbn. auto.
  - reflexivity.
Defined.

Lemma drawSegment_strokes (keypoints : list Keypoint.t) (pair : string * string) :
  (List.length (filter is_stroke (drawSegment keypoints pair)) <= 1)%nat.
Proof.
  unfold drawSegment. destruct pair as [a b].
  destruct (getKP keypoints a), (getKP keypoints b); cbn; try lia.
  destruct (gtb _ _ && gtb _ _); cbn; lia.
Qed.

Lemma drawDot_no_stroke (kp : Keypoint.t) : filter is_stroke (drawDot kp) = [].
Proof. unfold drawDot. destruct (gtb _ _); reflexivity. Qed.

Lemma flat_map_length_le (A B : Type) (f : A -> list B) (l : list A) :
  (forall a, List.length (f a) <= 1)%nat ->
  (List.length (flat_map f l) <= List.length l)%nat.
Proof.
  intros H. induction l as [ | a l IH]; [cbn; lia | ].
  cbn [flat_map]. rewrite length_app. specialize (H a). cbn [List.length]. lia.
Qed.

(** [drawSkeleton] strokes at most twelve segments, whatever the pose. *)
Theorem drawSkeleton_at_most_twelve (canvas : option Canvas.t) (pose : Pose) :
  (List.length (filter is_stroke (drawSkeleton canvas pose)) <= 12)%nat.
Proof.
  unfold drawSkeleton. destruct canvas as [canvas | ]; [ | cbn; lia].
  rewrite !filter_app, !filter_flat_map.
  rewrite (flat_map_nil _ _ (fun kp => filter is_stroke (drawDot kp)))
    by (intros; apply drawDot_no_stroke).
  cbn [filter is_stroke app].
  pose proof (flat_map_length_le _ _
                (fun pair => filter is_stroke (drawSegment (keypoints pose) pair))
                adjacentPairs (drawSegment_strokes (keypoints pose))) as H.
  cbn [List.length adjacentPairs] in H. exact H.
Qed.

Lemma getKP_missing (keypoints : list Keypoint.t) (name : string) :
  (forall kp, In kp keypoints -> Keypoint.name kp <> name) ->
  getKP keypoints name = None.
Proof.
  intros H. unfold getKP.
  destruct (find _ keypoints) as [kp | ] eqn:Hfind; [ | reflexivity].
  apply find_some in Hfind. destruct Hfind as [Hin Hname].
  apply String.eqb_eq in Hname. destruct (H kp Hin Hname).
Qed.

(** The pairs are looked up under the names "leftShoulder",
    "rightHip", ...: for a pose none of whose keypoints bears the first
    name of a pair (such as a pose named "left_shoulder", ... as
    [getPoint] expects), no segment is drawn at all, only the dots. *)
Theorem drawSkeleton_no_segments (canvas : Canvas.t) (pose : Pose) :
  (forall kp, In kp (keypoints pose) ->
              ~ In (Keypoint.name kp) (map fst adjacentPairs)) ->
  drawSkeleton (Some canvas) pose
  = [clearRect 0 0 (Canvas.width canvas) (Canvas.height canvas)]
    ++ flat_map drawDot (keypoints pose)
    ++ [strokeStyle "#6cf5b5"; lineWidth 3.5].
Proof.
  intros H. unfold drawSkeleton.
  rewrite (flat_map_nil _ _ (drawSegment (keypoints pose))); [reflexivity | ].
  intros [a b] Hpair. unfold drawSegment.
  rewrite (getKP_missing (keypoints pose) a); [reflexivity | ].
  intros kp Hin Hname. apply (H kp Hin). rewrite Hname.
  apply (in_map fst adjacentPairs (a, b) Hpair).
Qed.

Lemma drawSkeleton_no_segments_witness :
  drawSkeleton (Some (Canvas.mk 960 540)) fullPose
  = [clearRect 0 0 960 540]
    ++ flat_map drawDot (keypoints fullPose)
    ++ [strokeStyle "#6cf5b5"; lineWidth 3.5].
Proof.
  apply (drawSkeleton_no_segments (Canvas.mk 960 540) fullPose).
  intros kp Hin Hname. cbn in Hin, Hname.
  repeat (destruct Hin as [<- | Hin];
          [cbn in Hname; repeat (destruct Hname as [Hname | Hname];
                                 [discriminate Hname | ]); exact Hname | ]).
  exact Hin.
Defined.

(** ** The variant with the summarizer *)

Lemma summarizer_stages (pose : Pose) (state : RepState.t) (y : R) :
  shoulderY pose = Some y ->
  fst (processPose_summarizer pose state) = fst (processPose_rep y state)
  /\ (snd (processPose_summarizer pose state) = [setScore 100]
      /\ RepState.repCount (fst (processPose_rep y state)) = RepState.repCount state
      \/ snd (processPose_summarizer pose state)
         = [setRepCount (RepState.repCount state + 1); setFeedback msg_strong_rep;
            setScore 100]
         /\ RepState.repCount (fst (processPose_rep y state))
            = (RepState.repCount state + 1)%nat).
Proof.
  unfold shoulderY, processPose_summarizer, processPose_rep.
  destruct (getPoint pose "left_shoulder") as [l | ]; [ | discriminate].
  destruct (getPoint pose "right_shoulder") as [r | ]; [ | discriminate].
  intros [= <-].
  destruct state as [p [t | ] b n];
    cbn [RepState.topY RepState.phase RepState.bottomY RepState.repCount];
    destruct (String.eqb p "top"); try destruct (String.eqb p "bottom");
    repeat match goal with
           | |- context [if ?c then _ else _] =>
               lazymatch c with
               | context [if _ then _ else _] => fail
               | _ => destruct c
               end
           end; cbn; auto.
Qed.

Lemma summarizer_skips (pose : Pose) (state : RepState.t) :
  shoulderY pose = None -> processPose_summarizer pose state = (state, []).
Proof.
  unfold shoulderY, processPose_summarizer.
  destruct (getPoint pose "left_shoulder"); [ | reflexivity].
  destruct (getPoint pose "right_shoulder"); [discriminate | reflexivity].
Qed.

(** Both components count alike: on any pose and any rep state, the
    [processPose] of the variant with the summarizer leaves the rep
    state that the [processPose] with form scoring leaves. *)
Theorem summarizer_same_reps (now : Z) (pose : Pose) (s : Session) :
  fst (processPose_summarizer pose (repStateRef s))
  = repStateRef (fst (processPose now pose s)).
Proof.
  destruct (shoulderY pose) as [y | ] eqn:Hy.
  - rewrite (processPose_repState now pose s y Hy).
    apply (summarizer_stages pose (repStateRef s) y Hy).
  - rewrite (summarizer_skips pose _ Hy), (processPose_skips now pose s Hy).
    reflexivity.
Qed.

Lemma summarizer_page_step (pose : Pose) (state : RepState.t) (v : View.t) :
  View.repCount v = RepState.repCount state ->
  View.score v = 100 ->
  View.feedback v = (if Nat.eqb (RepState.repCount state) 0 then msg_start
                     else msg_strong_rep) ->
  let state' := fst (processPose_summarizer pose state) in
  let v' := render (snd (processPose_summarizer pose state)) v in
  View.repCount v' = RepState.repCount state'
  /\ View.score v' = 100
  /\ View.feedback v' = (if Nat.eqb (RepState.repCount state') 0 then msg_start
                         else msg_strong_rep).
Proof.
  intros Hc Hs Hf. cbv zeta.
  destruct (shoulderY pose) as [y | ] eqn:Hy.
  - destruct (summarizer_stages pose state y Hy) as [Hst [[Hev Hn] | [Hev Hn]]];
      rewrite Hst, Hev, Hn; cbn.
    + auto.
    + repeat split. rewrite Nat.add_1_r. reflexivity.
  - rewrite (summarizer_skips pose state Hy). cbn. auto.
Qed.

(** In the variant with the summarizer the page always shows the count
    held in the ref and a score of 100; its feedback is the start
    message until the first rep is counted and "Strong rep! ..." from
    then on. *)
Theorem summarizer_page (frames : list Frame) :
  let state := summarizerRun frames initialRepState in
  let v := render (summarizerEvents frames initialRepState) initialView in
  View.repCount v = RepState.repCount state
  /\ View.score v = 100
  /\ View.feedback v = (if Nat.eqb (RepState.repCount state) 0 then msg_start
                        else msg_strong_rep).
Proof.
  cbv zeta.
  assert (H : forall state v,
             View.repCount v = RepState.repCount state ->
             View.score v = 100 ->
             View.feedback v = (if Nat.eqb (RepState.repCount state) 0 then msg_start
                                else msg_strong_rep) ->
             let state' := summarizerRun frames state in
             let v' := render (summarizerEvents frames state) v in
             View.repCount v' = RepState.repCount state'
             /\ View.score v' = 100
             /\ View.feedback v' = (if Nat.eqb (RepState.repCount state') 0
                                    then msg_start else msg_strong_rep)).
  { induction frames as [ | f frames IH]; intros state v Hc Hs Hf; cbv zeta.
    - cbn. auto.
    - cbn [summarizerRun summarizerEvents fold_left]. rewrite render_app.
      destruct (summarizer_page_step (snd f) state v Hc Hs Hf) as (Hc' & Hs' & Hf').
      apply (IH _ _ Hc' Hs' Hf'). }
  apply H; reflexivity.
Qed.

Lemma geminiCalls_spaced (frames : list Frame) (lastGeminiCall : Z) :
  spaced lastGeminiCall (geminiCalls frames lastGeminiCall).
Proof.
  revert lastGeminiCall; induction frames as [ | [now pose] frames IH];
    intros lastGeminiCall; [exact I | ].
  cbn [geminiCalls fst snd]. unfold sendToGemini.
  destruct (Z.ltb_spec (now - lastGeminiCall) 1000).
  - apply IH.
  - cbn [spaced]. split; [lia | apply IH].
Qed.

(** The summarizer is asked at most once per second: over any frames
    and whatever their clock values, each request is made at least
    1000 ms after the previous one (and the first one at least 1000 ms
    after the initial [lastGeminiCall]). *)
Theorem sendToGemini_rate_limit (frames : list Frame) (lastGeminiCall : Z) :
  spaced lastGeminiCall (geminiCalls frames lastGeminiCall)
  /\ incl (geminiCalls frames lastGeminiCall) (map fst frames).
Proof.
  split; [apply geminiCalls_spaced | ].
  revert lastGeminiCall; induction frames as [ | [now pose] frames IH];
    intros lastGeminiCall; [intros t [] | ].
  cbn [geminiCalls fst snd map]. unfold sendToGemini.
  destruct (Z.ltb_spec (now - lastGeminiCall) 1000).
  - apply incl_tl, IH.
  - apply incl_cons; [left; reflexivity | apply incl_tl, IH].
Qed.

(** ** Several reps in a row *)

Lemma cycle_from_top (y0 : R) (up down : list R) (t b : option R) (n : nat) :
  fullCycle (y0, up, down) ->
  exists t' b',
    repRun (y0 :: up ++ down) (RepState.mk "top" t b n)
    = RepState.mk "top" t' b' (n + 1).
Proof.
  intros (Hup & Hdown & Hrise & Hfall).
  destruct halfUlp_pos as [H70 H40].
  pose proof (rising_last y0 up Hup) as Hpeak.
  rewrite repRun_cons, repRun_app.
  destruct t as [t | ].
  - rewrite rep_top_step.
    assert (Hm : Rmin t y0 <= y0) by apply Rmin_r.
    destruct (gtb_spec (y0 - Rmin t y0) 52) as [Hgo | Hstay]; cbn [fst].
    + rewrite (rise_in_bottom up y0) by exact Hup.
      rewrite (fall_in_bottom down (last up y0)) by (exact Hdown || lra).
      rewrite gtb_true by lra. eauto.
    + rewrite (rise_in_top up y0) by (exact Hup || lra).
      rewrite gtb_true by lra.
      rewrite (fall_in_bottom down (last up y0)) by (exact Hdown || lra).
      rewrite gtb_true by lra. eauto.
  - rewrite rep_seed. cbn [fst].
    rewrite (rise_in_top up y0) by (exact Hup || lra).
    rewrite gtb_true by lra.
    rewrite (fall_in_bottom down (last up y0)) by (exact Hdown || lra).
    rewrite gtb_true by lra. eauto.
Qed.

Lemma cycles_from_top (cycles : list Cycle) (t b : option R) (n : nat) :
  Forall fullCycle cycles ->
  exists t' b',
    repRun (flat_map cycleHeights cycles) (RepState.mk "top" t b n)
    = RepState.mk "top" t' b' (n + List.length cycles).
Proof.
  intros H. revert t b n; induction H as [ | [[y0 up] down] cycles Hc _ IH];
    intros t b n.
  - exists t, b. cbn. rewrite Nat.add_0_r. reflexivity.
  - cbn [flat_map cycleHeights]. rewrite repRun_app.
    destruct (cycle_from_top y0 up down t b n Hc) as (t1 & b1 & ->).
    destruct (IH t1 b1 (n + 1)%nat) as (t2 & b2 & ->).
    exists t2, b2. cbn [List.length]. f_equal. lia.
Qed.

(** Reps add up: a fresh rep machine fed the shoulder heights of any
    number of push-ups in a row, each rising from its first height to
    a peak and then falling, the rise exceeding 70 and the fall 40 as
    the source computes them (exact differences above 70 + 2^-47 and
    40 + 2^-48), counts exactly that number of reps and ends in phase
    top. *)
Theorem reps_add_up (cycles : list Cycle) :
  Forall fullCycle cycles ->
  let state := repRun (flat_map cycleHeights cycles) initialRepState in
  RepState.repCount state = List.length cycles
  /\ RepState.phase state = "top"%string.
Proof.
  intros Hcycles state. subst state.
  destruct (cycles_from_top cycles None None 0 Hcycles) as (t & b & H).
  unfold initialRepState. rewrite H. split; reflexivity.
Qed.

Lemma reps_add_up_witness :
  let cycles := [(100, [180], [120]); (120, [200], [100])] in
  let state := repRun (flat_map cycleHeights cycles) initialRepState in
  RepState.repCount state = 2%nat /\ RepState.phase state = "top"%string.
Proof.
  apply (reps_add_up [(100, [180], [120]); (120, [200], [100])]).
  repeat (apply Forall_cons || apply Forall_nil);
    unfold fullCycle, halfUlp70, halfUlp40; cbn; repeat split; lra.
Defined.
